(** * nginx_push_stream_exporter: a shallow embedding of the exporter

    The development follows [nginx_pushstream_exporter.go] and the two
    versions of package [pushstream] (counters as [int64], counters as
    [string]).  Go maps are [gmap]s, the random iteration order of
    [range] over a map is an explicit list that is a permutation of the
    map's entries, [int64] is [Z] with its wrap-around written out, and
    a run-time panic is an outcome of its own. *)

From Stdlib Require Import ZArith Ascii String List Lia.
From stdpp Require Import base tactics option list sorting strings gmap fin_maps.

Set Warnings "-register-all,-clear-no-such-hyp".
Local Open Scope string_scope.
Local Open Scope Z_scope.

(** ** Go's [strings], [strconv] and [sort] as far as the exporter uses them *)

Module strings.

(** [strings.Split(s, ",")] for the one-byte separator the exporter
    passes: the pieces between the separators, [n+1] pieces for [n]
    separators (so one empty piece for the empty string). *)
Fixpoint Split (s : string) (sep : ascii) : list string :=
  match s with
  | EmptyString => [EmptyString]
  | String c s' =>
      if Ascii.eqb c sep then EmptyString :: Split s' sep
      else match Split s' sep with
           | [] => [String c EmptyString]
           | p :: ps => String c p :: ps
           end
  end.

(** [strings.Join(elems, sep)]. *)
Definition Join (elems : list string) (sep : string) : string :=
  String.concat sep elems.

End strings.

Module strconv.

Definition digit (c : ascii) : option Z :=
  let n := Z.of_N (N_of_ascii c) in
  if (48 <=? n) && (n <=? 57) then Some (n - 48) else None.

(** The digits of an unsigned decimal literal, most significant first. *)
Fixpoint digits (acc : Z) (s : string) : option Z :=
  match s with
  | EmptyString => Some acc
  | String c s' =>
      match digit c with
      | Some d => digits (10 * acc + d) s'
      | None => None
      end
  end.

Definition unsigned (s : string) : option Z :=
  match s with
  | EmptyString => None
  | _ => digits 0 s
  end.

Definition minInt : Z := - 2 ^ 63.
Definition maxInt : Z := 2 ^ 63 - 1.

(** [strconv.Atoi] on a 64-bit platform: an optional sign, then one or
    more decimal digits, the value within [int]; [None] is the error. *)
Definition Atoi (s : string) : option Z :=
  let signed :=
    match s with
    | String "+" s' => unsigned s'
    | String "-" s' => Z.opp <$> unsigned s'
    | _ => unsigned s
    end in
  match signed with
  | Some n => if (minInt <=? n) && (n <=? maxInt) then Some n else None
  | None => None
  end.

End strconv.

(** [int64] arithmetic wraps around. *)
Definition wrap64 (z : Z) : Z := (z + 2 ^ 63) mod 2 ^ 64 - 2 ^ 63.
Definition add64 (a b : Z) : Z := wrap64 (a + b).
Definition is_int64 (z : Z) : Prop := - 2 ^ 63 <= z < 2 ^ 63.

Module sort.
(** [sort.Strings]: ascending byte-wise order. *)
Definition Strings (keys : list string) : list string :=
  merge_sort String.le keys.
End sort.

(** ** The part of [prometheus] the exporter touches *)

Module prometheus.

(** [prometheus.Desc]: the fully qualified name, the help text and the
    names of the variable labels. *)
Record Desc := mkDesc {
  fqName : string;
  help : string;
  variableLabels : list string
}.

#[global] Instance Desc_eq_dec : EqDecision Desc.
Proof. solve_decision. Defined.

(** [prometheus.BuildFQName]. *)
Definition BuildFQName (namespace subsystem name : string) : string :=
  if String.eqb name "" then ""
  else if negb (String.eqb namespace "") && negb (String.eqb subsystem "")
       then namespace +:+ "_" +:+ subsystem +:+ "_" +:+ name
  else if negb (String.eqb namespace "") then namespace +:+ "_" +:+ name
  else if negb (String.eqb subsystem "") then subsystem +:+ "_" +:+ name
  else name.

Definition NewDesc (fq docString : string) (labels : list string) : Desc :=
  mkDesc fq docString labels.

(** A metric as it is sent on the collector's channel.  The exporter
    hands [float64(n)] for an [int64] [n] to the client library; the
    model records [n] itself. *)
Record Metric := mkMetric {
  desc : Desc;
  value : Z;
  labelValues : list string
}.

#[global] Instance Metric_eq_dec : EqDecision Metric.
Proof. solve_decision. Defined.

End prometheus.
Import prometheus.

(** ** The catalog and the filter *)

Definition namespace : string := "nginx".
Definition nginxLabelNames : list string := ["channel"].

Definition newPushStreamMetrics (metricName docString : string) : Desc :=
  NewDesc (BuildFQName namespace "push_stream" metricName) docString nginxLabelNames.

Abbreviation metrics := (gmap string Desc).

Definition pushStreamMetrics : metrics :=
  <["channels" := newPushStreamMetrics "channels" "Current number of existing channels on this server."]>
  (<["subscribers" := newPushStreamMetrics "subscribers" "Current number of connected subscribers on channels on this server."]>
  (<["published_messages" := newPushStreamMetrics "published_messages" "Current number of existing channels on this server."]>
  (<["stored_messages" := newPushStreamMetrics "stored_messages" "Current number of existing channels on this server."]>
  (<["subscribers_total" := newPushStreamMetrics "subscribers_total" "Total current number of connected subscribers on this server."]>
   ∅)))).

Definition nginxUp : Desc :=
  NewDesc (BuildFQName namespace "" "up") "Was the last scrape of nginx successful." [].

(** [range] over a Go map visits the entries in an unspecified order:
    any list that is a permutation of the entries. *)
Definition range_of {V} (m : gmap string V) (order : list (string * V)) : Prop :=
  order ≡ₚ map_to_list m.

(** [metrics.String], along the iteration order [order] of the first loop. *)
Definition String_range (order : list (string * Desc)) : string :=
  let keys := foldl (λ keys kv, (keys ++ [kv.1])%list) [] order in
  let keys := sort.Strings keys in
  let s := replicate (length keys) "" in
  let s := foldl (λ s ik, <[ik.1 := ik.2]> s) s (zip (seq 0 (length keys)) keys) in
  strings.Join s ",".

Definition metrics_String (m : metrics) : string :=
  String_range (map_to_list m).

(** [filterMetrics], along the iteration order [order] of the loop over
    [pushStreamMetrics]. *)
Definition filterMetrics_range (order : list (string * Desc)) (filter : string) : metrics :=
  let metrics : metrics := ∅ in
  if (String.length filter =? 0)%nat then metrics
  else
    let selected : gset string :=
      foldl (λ selected f, {[ f ]} ∪ selected) ∅ (strings.Split filter ","%char) in
    foldl (λ metrics '(field, metric),
             if decide (field ∈ selected) then <[field := metric]> metrics else metrics)
          metrics order.

Definition filterMetrics (filter : string) : metrics :=
  filterMetrics_range (map_to_list pushStreamMetrics) filter.

(** The default of the flag [nginx.metric-fields] in [main]. *)
Definition nginxMetricFields_default : string := metrics_String pushStreamMetrics.

(** ** [encoding/json] as far as [Decoder.Decode] into the exporter's structs needs it *)

Module json.

(** A number literal: an integer literal (optional minus, digits) with
    its value, or a literal with a fraction or an exponent. *)
Inductive number :=
| Integer (z : Z)
| NonInteger (literal : string).

Inductive Value :=
| Null
| Bool (b : bool)
| Number (n : number)
| Str (s : string)
| Array (elems : list Value)
| Object (members : list (string * Value)).

(** What the decoder finds on the response body: no well-formed JSON
    value (a syntax error, or no value at all), or the first value. *)
Inductive stream :=
| Malformed
| Document (v : Value).

Inductive error :=
| SyntaxError
| UnmarshalTypeError (value type : string).

(** The decoder keeps the first type error and goes on decoding. *)
Definition saveError (saved err : option error) : option error :=
  match saved with
  | Some _ => saved
  | None => err
  end.

Definition kind (v : Value) : string :=
  match v with
  | Null => "null"
  | Bool _ => "bool"
  | Number _ => "number"
  | Str _ => "string"
  | Array _ => "array"
  | Object _ => "object"
  end.

Definition upper (c : ascii) : ascii :=
  let n := N_of_ascii c in
  if ((97 <=? n) && (n <=? 122))%N then ascii_of_N (n - 32) else c.

Fixpoint foldName (s : string) : string :=
  match s with
  | EmptyString => EmptyString
  | String c s' => String (upper c) (foldName s')
  end.

(** The struct field a member name selects: the field whose tag is the
    name, else the first one equal to it up to the case of ASCII
    letters; none when the name is unknown, and the member is skipped. *)
Definition findField (tags : list string) (name : string) : option nat :=
  match list_find (λ t, t = name) tags with
  | Some (i, _) => Some i
  | None => fst <$> list_find (λ t, foldName t = foldName name) tags
  end.

(** JSON [null] has no effect on a scalar; a number is stored in an
    [int64] when it is an integer literal within range; everything else
    is a type error that leaves the field as it was. *)
Definition store_int64 (v : Value) (old : Z) : Z * option error :=
  match v with
  | Null => (old, None)
  | Number (Integer z) =>
      if (- 2 ^ 63 <=? z) && (z <? 2 ^ 63) then (z, None)
      else (old, Some (UnmarshalTypeError "number" "int64"))
  | _ => (old, Some (UnmarshalTypeError (kind v) "int64"))
  end.

Definition store_string (v : Value) (old : string) : string * option error :=
  match v with
  | Null => (old, None)
  | Str s => (s, None)
  | _ => (old, Some (UnmarshalTypeError (kind v) "string"))
  end.

End json.

(** ** [reflect] values of the fields the exporter walks over *)

Module reflect.
Inductive Value :=
| Int64 (n : Z)
| String (s : string).
End reflect.

(** ** Package [pushstream], in its two versions

    The versions differ in the type of the counters only: [int64] in one,
    [string] in the other.  [Counter] is that type with what the decoder
    and the reflective walk do with it. *)

Class Counter (T : Type) := {
  zero : T;
  literalStore : json.Value → T → T * option json.error;
  ValueOf : T → reflect.Value
}.

#[export] Instance Counter_int64 : Counter Z := {|
  zero := 0;
  literalStore := json.store_int64;
  ValueOf := reflect.Int64
|}.

#[export] Instance Counter_string : Counter string := {|
  zero := "";
  literalStore := json.store_string;
  ValueOf := reflect.String
|}.

Module pushstream.
Section pushstream.
Context {T : Type} `{Counter T}.

Record Channel := mkChannel {
  channel : string;
  PublishedMessages : T;
  StoredMessages : T;
  Subscribers : T
}.

(** [Infos] is a slice of pointers: an element may be [nil]. *)
Record PushStream := mkPushStream {
  Channels : T;
  Infos : list (option Channel)
}.

Definition NewPushStream : option PushStream :=
  Some (mkPushStream zero []).

(** The [json] tags, in the order of the fields. *)
Definition Channel_tags : list string :=
  ["channel"; "published_messages"; "stored_messages"; "subscribers"].
Definition PushStream_tags : list string := ["channels"; "infos"].

End pushstream.
Arguments Channel T : clear implicits.
Arguments PushStream T : clear implicits.
End pushstream.
Import pushstream.

(** ** Decoding a response into [*PushStream] *)

Section Decode.
Context {T : Type} `{Counter T}.

Import json.

(** One member of a JSON object stored into a [Channel]. *)
Definition Channel_member (c : Channel T) (member : string * Value)
  : Channel T * option error :=
  let '(name, v) := member in
  match findField Channel_tags name with
  | Some 0%nat =>
      let '(x, err) := store_string v (channel c) in
      (mkChannel x (PublishedMessages c) (StoredMessages c) (Subscribers c), err)
  | Some 1%nat =>
      let '(x, err) := literalStore v (PublishedMessages c) in
      (mkChannel (channel c) x (StoredMessages c) (Subscribers c), err)
  | Some 2%nat =>
      let '(x, err) := literalStore v (StoredMessages c) in
      (mkChannel (channel c) (PublishedMessages c) x (Subscribers c), err)
  | Some 3%nat =>
      let '(x, err) := literalStore v (Subscribers c) in
      (mkChannel (channel c) (PublishedMessages c) (StoredMessages c) x, err)
  | _ => (c, None)
  end.

(** A struct is filled member by member, in the order of the text; the
    first error is kept and the later members are still stored. *)
Definition Channel_object (members : list (string * Value)) (c : Channel T)
  : Channel T * option error :=
  foldl (λ '(c, saved) member,
           let '(c', err) := Channel_member c member in
           (c', saveError saved err))
        (c, None) members.

(** A JSON value stored into a [*Channel] element of the slice: [null]
    makes the pointer [nil]; otherwise a [nil] pointer is allocated
    first, and only an object fits the struct. *)
Definition Channel_ptr (v : Value) (p : option (Channel T))
  : option (Channel T) * option error :=
  let c := default (mkChannel "" zero zero zero) p in
  match v with
  | Null => (None, None)
  | Object members =>
      let '(c', err) := Channel_object members c in (Some c', err)
  | _ => (Some c, Some (UnmarshalTypeError (kind v) "pushstream.Channel"))
  end.

(** A JSON array stored into the slice: element [i] is decoded into the
    element the slice already has at [i], if any (a repeated member
    decodes over the value the earlier one left), and the slice ends up
    as long as the array.  Capacity beyond the length is not modelled. *)
Fixpoint Infos_array (elems : list Value) (old : list (option (Channel T)))
  : list (option (Channel T)) * option error :=
  match elems with
  | [] => ([], None)
  | v :: elems' =>
      let '(p, err) := Channel_ptr v (mjoin (head old)) in
      let '(ps, err') := Infos_array elems' (tail old) in
      (p :: ps, saveError err err')
  end.

Definition PushStream_member (ps : PushStream T) (member : string * Value)
  : PushStream T * option error :=
  let '(name, v) := member in
  match findField PushStream_tags name with
  | Some 0%nat =>
      let '(x, err) := literalStore v (Channels ps) in
      (mkPushStream x (Infos ps), err)
  | Some 1%nat =>
      match v with
      | Null => (mkPushStream (Channels ps) [], None)
      | Array elems =>
          let '(infos, err) := Infos_array elems (Infos ps) in
          (mkPushStream (Channels ps) infos, err)
      | _ => (ps, Some (UnmarshalTypeError (kind v) "[]*pushstream.Channel"))
      end
  | _ => (ps, None)
  end.

Definition PushStream_object (members : list (string * Value)) (ps : PushStream T)
  : PushStream T * option error :=
  foldl (λ '(ps, saved) member,
           let '(ps', err) := PushStream_member ps member in
           (ps', saveError saved err))
        (ps, None) members.

(** [json.NewDecoder(body).Decode(&ps)] for [ps] of type [*PushStream]:
    the pointer [ps] after the call, and the error.  The decoder is
    given the address of the pointer, so a document [null] sets the
    pointer itself to [nil] and is no error. *)
Definition Decode (body : stream) (ps : option (PushStream T))
  : option (PushStream T) * option error :=
  match body with
  | Malformed => (ps, Some SyntaxError)
  | Document Null => (None, None)
  | Document (Object members) =>
      let '(ps', err) :=
        PushStream_object members (default (mkPushStream zero []) ps) in
      (Some ps', err)
  | Document v => (ps, Some (UnmarshalTypeError (kind v) "pushstream.PushStream"))
  end.

End Decode.

(** ** The collector: metrics sent so far, the scrape counter, and panics *)

Record world := mkWorld {
  ch : list Metric;        (* what has been sent on the channel [ch] *)
  totalScrapes : Z         (* the counter [e.totalScrapes] *)
}.

Inductive outcome (A : Type) :=
| Return (a : A) (w : world)
| Panic (reason : string) (w : world).
Arguments Return {A} a w.
Arguments Panic {A} reason w.

Definition M (A : Type) : Type := world → outcome A.

#[export] Instance M_ret : MRet M := λ A a w, Return a w.
#[export] Instance M_bind : MBind M := λ A B f m w,
  match m w with
  | Return a w' => f a w'
  | Panic reason w' => Panic reason w'
  end.

Definition panic {A} (reason : string) : M A := λ w, Panic reason w.

(** [ch <- m] *)
Definition send (m : Metric) : M unit :=
  λ w, Return () (mkWorld (ch w ++ [m]) (totalScrapes w)).

(** [e.totalScrapes.Inc()] *)
Definition Inc : M unit :=
  λ w, Return () (mkWorld (ch w) (totalScrapes w + 1)).

(** The value of [e.totalScrapes] when the counter is collected. *)
Definition Counter_value : M Z :=
  λ w, Return (totalScrapes w) w.

(** A [for] loop over a slice that threads the local variable [b]. *)
Fixpoint foldM {A B} (f : B → A → M B) (b : B) (l : list A) : M B :=
  match l with
  | [] => mret b
  | a :: l' => b' ← f b a; foldM f b' l'
  end.

(** [prometheus.MustNewConstMetric]: the descriptor is dereferenced, so a
    [nil] descriptor is a run-time panic; so is a number of label values
    that differs from the descriptor's. *)
Definition MustNewConstMetric (desc : option Desc) (value : Z) (labelValues : list string)
  : M Metric :=
  match desc with
  | None => panic "invalid memory address or nil pointer dereference"
  | Some d =>
      if (length labelValues =? length (variableLabels d))%nat
      then mret (mkMetric d value labelValues)
      else panic "inconsistent label cardinality"
  end.

(** [reflect.Value.Int] panics unless the value is of an integer kind. *)
Definition Value_Int (v : reflect.Value) : M Z :=
  match v with
  | reflect.Int64 n => mret n
  | reflect.String _ => panic "reflect: call of reflect.Value.Int on string Value"
  end.

(** ** [Exporter.scrape] and [Exporter.Collect] *)

Section Exporter.
Context {T : Type} `{Counter T}.

Record Exporter := mkExporter {
  URI : string;
  e_pushStreamMetrics : metrics
}.

(** The fields of a struct as [reflect] enumerates them: the [json]
    tag of field [i] and its value. *)
Definition Channel_fields (info : Channel T) : list (string * reflect.Value) :=
  zip Channel_tags
      [reflect.String (channel info); ValueOf (PublishedMessages info);
       ValueOf (StoredMessages info); ValueOf (Subscribers info)].

Inductive PushStream_field :=
| Scalar (v : reflect.Value)
| Slice (infos : list (option (Channel T))).

Definition PushStream_fields (ps : PushStream T) : list (string * PushStream_field) :=
  zip PushStream_tags [Scalar (ValueOf (Channels ps)); Slice (Infos ps)].

(** The body of the loop over the fields of one [info] (lines 188-206). *)
Definition scrape_infoField (key : string) (val : Desc) (info : Channel T)
    (subscribersTotal : Z) (field : string * reflect.Value) : M Z :=
  let '(tag, valueInfoField) := field in
  _ ← (if String.eqb key tag then
         n ← Value_Int valueInfoField;
         m ← MustNewConstMetric (Some val) n [channel info];
         send m
       else mret ());
  if String.eqb key "subscribers_total" && String.eqb tag "subscribers" then
    match valueInfoField with
    | reflect.String s =>
        match strconv.Atoi s with
        | Some n => mret (add64 subscribersTotal n)
        | None => mret (add64 subscribersTotal 0)   (* and a line on stdout *)
        end
    | reflect.Int64 n => mret (add64 subscribersTotal n)
    end
  else mret subscribersTotal.

(** The body of the loop over [ps.Infos] (lines 185-207):
    [reflect.ValueOf(info).Elem()] of a [nil] pointer is the zero
    [Value], on which [NumField] panics. *)
Definition scrape_info (key : string) (val : Desc)
    (subscribersTotal : Z) (info : option (Channel T)) : M Z :=
  match info with
  | None => panic "reflect: call of reflect.Value.NumField on zero Value"
  | Some c => foldM (scrape_infoField key val c) subscribersTotal (Channel_fields c)
  end.

(** The body of the loop over the fields of [ps] (lines 176-209). *)
Definition scrape_field (key : string) (val : Desc) (ps : PushStream T)
    (subscribersTotal : Z) (field : string * PushStream_field) : M Z :=
  let '(tag, valueField) := field in
  match valueField with
  | Scalar (reflect.Int64 n) =>
      _ ← (if String.eqb key tag then
             m ← MustNewConstMetric (Some val) n ["all"];
             send m
           else mret ());
      mret subscribersTotal
  | Slice _ => foldM (scrape_info key val) subscribersTotal (Infos ps)
  | Scalar (reflect.String _) => mret subscribersTotal
  end.

(** The body of the loop over the selected metrics (lines 175-210);
    [v] is [reflect.ValueOf(ps).Elem()], the zero [Value] for [nil]. *)
Definition scrape_key (ps : option (PushStream T))
    (subscribersTotal : Z) (entry : string * Desc) : M Z :=
  let '(key, val) := entry in
  match ps with
  | None => panic "reflect: call of reflect.Value.NumField on zero Value"
  | Some v => foldM (scrape_field key val v) subscribersTotal (PushStream_fields v)
  end.

(** [scrape]: [fetched] is what [e.fetch()] returns this time, [order]
    the order in which [range] visits [e.pushStreamMetrics]. *)
Definition scrape (e : Exporter) (order : list (string * Desc))
    (fetched : option json.stream) : M Z :=
  let subscribersTotal := 0 in
  _ ← Inc;
  match fetched with
  | None => mret 0
  | Some body =>
      let ps := NewPushStream in
      let '(ps, jsonError) := Decode body ps in
      match jsonError with
      | Some _ => mret 0
      | None =>
          subscribersTotal ← foldM (scrape_key ps) subscribersTotal order;
          m ← MustNewConstMetric (e_pushStreamMetrics e !! "subscribers_total")
                                 subscribersTotal ["all"];
          _ ← send m;
          mret 1
      end
  end.

Definition totalScrapes_desc : Desc :=
  NewDesc (BuildFQName namespace "" "exporter_total_scrapes")
          "Current total nginx scrapes." [].

(** [Collect]: the liveness gauge and the scrape counter follow what
    [scrape] sent. *)
Definition Collect (e : Exporter) (order : list (string * Desc))
    (fetched : option json.stream) : M unit :=
  up ← scrape e order fetched;
  m ← MustNewConstMetric (Some nginxUp) up [];
  _ ← send m;
  n ← Counter_value;
  send (mkMetric totalScrapes_desc n []).

End Exporter.
Arguments PushStream_field T : clear implicits.

(** [main]: the exporter built from the flag [nginx.metric-fields]. *)
Definition main_exporter (nginxMetricFields : string) : Exporter :=
  mkExporter "http://localhost:8080/channels-stats?id=ALL"
             (filterMetrics nginxMetricFields).


(** ** Payloads and samples of the statements *)

(** The fully qualified name of the metric with catalog key [key]. *)
Definition fq (key : string) : string := BuildFQName namespace "push_stream" key.

(** A sample as it is compared: metric name, label values, value. *)
Definition Sample : Type := string * list string * Z.
Definition Sample_of (m : Metric) : Sample := (fqName (desc m), labelValues m, value m).

(** The wire form of a channel and of a response, counters as numbers. *)
Definition native_channel (c : Channel Z) : json.Value :=
  json.Object [("channel", json.Str (channel c));
               ("published_messages", json.Number (json.Integer (PublishedMessages c)));
               ("stored_messages", json.Number (json.Integer (StoredMessages c)));
               ("subscribers", json.Number (json.Integer (Subscribers c)))].

Definition native_payload (n : Z) (cs : list (Channel Z)) : json.Value :=
  json.Object [("channels", json.Number (json.Integer n));
               ("infos", json.Array (native_channel <$> cs))].



Definition int64_channel (c : Channel Z) : Prop :=
  is_int64 (PublishedMessages c) ∧ is_int64 (StoredMessages c) ∧ is_int64 (Subscribers c).

(** The sum of an [int64] variable over a list, as the loop computes it. *)
Definition sum64 (total : Z) (l : list Z) : Z := foldl add64 total l.

(** What one selected metric contributes for one channel, and for a
    whole record, when the counters are [int64]. *)
Definition info_samples (key : string) (val : Desc) (c : Channel Z) : list Metric :=
  ((if decide (key = "published_messages")
    then [mkMetric val (PublishedMessages c) [channel c]] else [])
   ++ (if decide (key = "stored_messages")
       then [mkMetric val (StoredMessages c) [channel c]] else [])
   ++ (if decide (key = "subscribers")
       then [mkMetric val (Subscribers c) [channel c]] else []))%list.

Definition key_samples (n : Z) (cs : list (Channel Z)) (entry : string * Desc)
  : list Metric :=
  ((if decide (entry.1 = "channels") then [mkMetric entry.2 n ["all"]] else [])
   ++ (cs ≫= info_samples entry.1 entry.2))%list.

(** The selections the exporter is built with: no key is the tag of the
    channel name, and every descriptor has the one label [channel]. *)
Definition selectable (entry : string * Desc) : Prop :=
  entry.1 ≠ "channel" ∧ length (variableLabels entry.2) = 1%nat.

(** A counter string as the summation reads it. *)
Definition Atoi_or_0 (s : string) : Z := default 0 (strconv.Atoi s).

(** A JSON value that the decoder refuses to store in an [int64]. *)
Definition int64_mismatch (v : json.Value) : bool :=
  match v with
  | json.Null => false
  | json.Number (json.Integer z) => negb ((- 2 ^ 63 <=? z) && (z <? 2 ^ 63))
  | _ => true
  end.

(** A document with such a value in a position that is decoded into an
    [int64]: the top-level count, or a counter of an element of [infos]. *)
Inductive bad_integer_position : json.Value → Prop :=
| bad_count members name v :
    (name, v) ∈ members →
    json.findField PushStream_tags name = Some 0%nat →
    int64_mismatch v = true →
    bad_integer_position (json.Object members)
| bad_counter members name elems fields name' v i :
    (name, json.Array elems) ∈ members →
    json.findField PushStream_tags name = Some 1%nat →
    json.Object fields ∈ elems →
    (name', v) ∈ fields →
    json.findField Channel_tags name' = Some (S i) →
    (i < 3)%nat →
    int64_mismatch v = true →
    bad_integer_position (json.Object members).

(** The response of the end-to-end scenario, counters as numbers. *)
Definition scenario_payload : json.Value :=
  json.Object
    [("channels", json.Number (json.Integer 2));
     ("infos", json.Array
        [json.Object [("channel", json.Str "a");
                      ("published_messages", json.Number (json.Integer 10));
                      ("stored_messages", json.Number (json.Integer 3));
                      ("subscribers", json.Number (json.Integer 5))];
         json.Object [("channel", json.Str "b");
                      ("published_messages", json.Number (json.Integer 1));
                      ("stored_messages", json.Number (json.Integer 0));
                      ("subscribers", json.Number (json.Integer 2))]])].

(** The same response with every counter as a string. *)
Definition scenario_payload_strings : json.Value :=
  json.Object
    [("channels", json.Str "2");
     ("infos", json.Array
        [json.Object [("channel", json.Str "a");
                      ("published_messages", json.Str "10");
                      ("stored_messages", json.Str "3");
                      ("subscribers", json.Str "5")];
         json.Object [("channel", json.Str "b");
                      ("published_messages", json.Str "1");
                      ("stored_messages", json.Str "0");
                      ("subscribers", json.Str "2")]])].



(** The collector before the first scrape. *)
Definition w0 : world := mkWorld [] 0.


(** The counters of the channels as the summation reads them when they
    are strings. *)
Definition subscriber_values (cs : list (Channel string)) : list Z :=
  (λ c, Atoi_or_0 (Subscribers c)) <$> cs.

(** The malformed response of the spec, [{"channels":"not-a-number","infos":[]}],
    and one with [null] for the count. *)
Definition not_a_number_payload : json.Value :=
  json.Object [("channels", json.Str "not-a-number"); ("infos", json.Array [])].

Definition null_count_payload : json.Value :=
  json.Object [("channels", json.Null); ("infos", json.Array [])].

(** ** [fetchHTTP] and [Describe] *)

Module http.
(** What the exporter reads of a response: the status and the body. *)
Record Response := mkResponse {
  StatusCode : Z;
  Body : json.stream
}.
End http.

(** [fetchHTTP]: the closure it returns, given what [client.Get] does
    ([None] is its error).  A status outside [200..299] closes the body
    and is an error. *)
Definition fetchHTTP (uri : string) (timeout : Z)
    (client_Get : string → option http.Response) : () → option json.stream :=
  λ _,
    match client_Get uri with
    | None => None
    | Some resp =>
        if negb ((200 <=? http.StatusCode resp) && (http.StatusCode resp <? 300))
        then None
        else Some (http.Body resp)
    end.

(** [Describe]: what is sent on the channel of descriptors, [order] being
    the order in which [range] visits [e.pushStreamMetrics]. *)
Definition Describe (e : Exporter) (order : list (string * Desc)) : list Desc :=
  let ch := foldl (λ ch (entry : string * Desc), (ch ++ [entry.2])%list) [] order in
  let ch := (ch ++ [nginxUp])%list in
  (ch ++ [totalScrapes_desc])%list.

(** A computation that sends metrics satisfying [P] and does nothing
    else to the collector: whatever was sent before stays, the counter is
    untouched, and neither the result (which satisfies [Q]) nor what is
    sent depends on the collector's state. *)
Definition sends {A} (P : Metric → Prop) (Q : A → Prop) (m : M A) : Prop :=
  ∃ out, Forall P out
    ∧ ((∃ a, Q a ∧ ∀ w, m w = Return a (mkWorld (ch w ++ out) (totalScrapes w)))
       ∨ (∃ reason, ∀ w, m w = Panic reason (mkWorld (ch w ++ out) (totalScrapes w)))).

(** A metric of the selected map [m] with as many label values as its
    descriptor has labels. *)
Definition selected_metric (m : metrics) (x : Metric) : Prop :=
  (∃ key, m !! key = Some (desc x))
  ∧ length (labelValues x) = length (variableLabels (desc x)).

(** The collector as a computation leaves it, returning or panicking. *)
Definition outcome_world {A} (o : outcome A) : world :=
  match o with
  | Return _ w => w
  | Panic _ w => w
  end.

(** * Properties *)

(** ** Strings *)

Lemma Split_nonempty s sep : strings.Split s sep ≠ [].
Proof.
  destruct s as [|c s]; simpl; [done|].
  destruct (Ascii.eqb c sep); [done|]. by destruct (strings.Split s sep).
Qed.

(** ** The filter *)

Lemma selected_spec (l : list string) (acc : gset string) (f : string) :
  f ∈ foldl (λ selected f, {[ f ]} ∪ selected) acc l ↔ f ∈ acc ∨ f ∈ l.
Proof.
  revert acc. induction l as [|x l IH]; intros acc; simpl.
  - set_solver.
  - rewrite IH. set_solver.
Qed.

Lemma filter_loop_lookup (selected : gset string) (order : list (string * Desc))
    (acc : metrics) (k : string) :
  NoDup order.*1 →
  foldl (λ metrics '(field, metric),
           if decide (field ∈ selected) then <[field := metric]> metrics else metrics)
        acc order !! k
  = match (if decide (k ∈ selected) then (list_to_map order : metrics) !! k else None) with
    | Some d => Some d
    | None => acc !! k
    end.
Proof.
  revert acc. induction order as [|[k0 d0] order IH]; intros acc Hnd; simpl.
  - rewrite lookup_empty. by destruct (decide _).
  - apply NoDup_cons in Hnd as [Hk0 Hnd]. rewrite IH by done.
    destruct (decide (k = k0)) as [->|Hne].
    + rewrite (not_elem_of_list_to_map_1 order k0 Hk0).
      rewrite lookup_insert_eq.
      destruct (decide (k0 ∈ selected)); [by rewrite lookup_insert_eq|done].
    + rewrite (lookup_insert_ne _ k0 k) by done.
      destruct (decide (k ∈ selected)); [|destruct (decide (k0 ∈ selected));
        by rewrite ?lookup_insert_ne].
      destruct (list_to_map order !! k); [done|].
      destruct (decide (k0 ∈ selected)); by rewrite ?lookup_insert_ne.
Qed.

Lemma range_of_refl {V} (m : gmap string V) : range_of m (map_to_list m).
Proof. by unfold range_of. Qed.

Lemma range_of_NoDup {V} (m : gmap string V) order : range_of m order → NoDup order.*1.
Proof. intros ->. apply NoDup_fst_map_to_list. Qed.

Lemma range_of_list_to_map {V} (m : gmap string V) order :
  range_of m order → list_to_map order = m.
Proof.
  intros Hp. rewrite <-(list_to_map_to_list m).
  apply list_to_map_proper; [by eapply range_of_NoDup|done].
Qed.

Lemma filterMetrics_range_lookup order (filter k : string) :
  range_of pushStreamMetrics order →
  filterMetrics_range order filter !! k
  = if decide (k ∈ strings.Split filter ",") then pushStreamMetrics !! k else None.
Proof.
  intros Hr. unfold filterMetrics_range.
  destruct filter as [|c filter'].
  - simpl. rewrite lookup_empty. destruct (decide _) as [Hin|]; [|done].
    apply list_elem_of_singleton in Hin as ->. done.
  - cbn [String.length Nat.eqb].
    rewrite filter_loop_lookup by by eapply range_of_NoDup.
    rewrite (range_of_list_to_map _ _ Hr), lookup_empty.
    destruct (decide (k ∈ foldl _ _ _)) as [Hin|Hnin].
    + apply selected_spec in Hin as [Hin|Hin]; [set_solver|].
      rewrite decide_True by done. by destruct (_ !! k).
    + rewrite decide_False; [done|]. intros Hin. apply Hnin, selected_spec. by right.
Qed.

Lemma filterMetrics_range_order order filter :
  range_of pushStreamMetrics order → filterMetrics_range order filter = filterMetrics filter.
Proof.
  intros Hr. apply map_eq; intros k. unfold filterMetrics.
  rewrite (filterMetrics_range_lookup order) by done.
  by rewrite filterMetrics_range_lookup by by unfold range_of.
Qed.

Lemma filterMetrics_exact_tokens_aux (order : list (string * Desc)) (filter : string) :
  range_of pushStreamMetrics order →
  (∀ k, filterMetrics_range order filter !! k
        = if decide (k ∈ strings.Split filter ",") then pushStreamMetrics !! k else None)
  ∧ filterMetrics_range order filter
    = base.filter (λ kv, kv.1 ∈ strings.Split filter ",") pushStreamMetrics.
Proof.
  intros Hr. split.
  - intros k. by apply filterMetrics_range_lookup.
  - apply map_eq; intros k. rewrite filterMetrics_range_lookup by done.
    rewrite map_lookup_filter. destruct (pushStreamMetrics !! k) as [d|] eqn:Hk; simpl.
    + destruct (decide _) as [Hin|Hnin]; [by rewrite option_guard_True|
                                          by rewrite option_guard_False].
    + by destruct (decide _).
Qed.

(** C7: the filter selects exactly the catalog entries whose key is,
    byte for byte, one of the comma-separated pieces of the selection:
    the match is case-sensitive and nothing is trimmed, a piece that is
    no catalog key contributes nothing and raises no error, and a
    selection that mixes known and unknown keys yields the entries of the
    known ones. *)
Theorem filterMetrics_exact_tokens (order : list (string * Desc)) (filter : string) :
  range_of pushStreamMetrics order →
  (∀ k, filterMetrics_range order filter !! k
        = if decide (k ∈ strings.Split filter ",") then pushStreamMetrics !! k else None)
  ∧ filterMetrics_range order filter
    = base.filter (λ kv, kv.1 ∈ strings.Split filter ",") pushStreamMetrics
  ∧ filterMetrics_range order "Channels" = ∅
  ∧ filterMetrics_range order " channels" = ∅
  ∧ filterMetrics_range order "channels, subscribers"
    = filterMetrics_range order "channels"
  ∧ filterMetrics_range order "bogus_metric" = ∅
  ∧ filterMetrics_range order "channels,bogus_metric,subscribers_total"
    = filterMetrics_range order "subscribers_total,channels"
  ∧ map_to_list (filterMetrics_range order "subscribers_total,channels")
    = [("subscribers_total",
        newPushStreamMetrics "subscribers_total"
          "Total current number of connected subscribers on this server.");
       ("channels",
        newPushStreamMetrics "channels"
          "Current number of existing channels on this server.")].
Proof.
  intros Hr. destruct (filterMetrics_exact_tokens_aux order filter Hr) as [Hl Hf].
  split; [done|]. split; [done|].
  rewrite !(filterMetrics_range_order order) by done.
  repeat split; by vm_compute.
Qed.

Lemma filterMetrics_exact_tokens_witness :
  filterMetrics_range (map_to_list pushStreamMetrics) "channels,bogus_metric" !! "channels"
  = pushStreamMetrics !! "channels".
Proof.
  pose proof (filterMetrics_exact_tokens (map_to_list pushStreamMetrics)
                "channels,bogus_metric" (range_of_refl _)) as [Hl _].
  rewrite (Hl "channels"). reflexivity.
Defined.

(** ** The catalog's keys *)

Lemma keys_loop {V} (order : list (string * V)) (acc : list string) :
  foldl (λ keys kv, (keys ++ [kv.1])%list) acc order = (acc ++ order.*1)%list.
Proof.
  revert acc. induction order as [|kv order IH]; intros acc; simpl.
  - by rewrite app_nil_r.
  - by rewrite IH, <-app_assoc.
Qed.

Lemma copy_loop (done keys : list string) :
  foldl (λ s ik, <[ik.1 := ik.2]> s)
        (done ++ replicate (length keys) "")%list
        (zip (seq (length done) (length keys)) keys)
  = (done ++ keys)%list.
Proof.
  revert done. induction keys as [|k keys IH]; intros done; simpl.
  - done.
  - rewrite insert_app_r_alt by done. rewrite Nat.sub_diag. simpl.
    specialize (IH (done ++ [k])%list). rewrite length_app in IH. simpl in IH.
    rewrite Nat.add_1_r, <-!app_assoc in IH. exact IH.
Qed.

Lemma sort_Strings_Permutation (l1 l2 : list string) :
  l1 ≡ₚ l2 → sort.Strings l1 = sort.Strings l2.
Proof.
  intros Hp. unfold sort.Strings.
  apply (Sorted_unique String.le); [apply Sorted_merge_sort, _..|].
  by rewrite !merge_sort_Permutation.
Qed.

Lemma String_range_eq (order : list (string * Desc)) :
  String_range order = strings.Join (sort.Strings order.*1) ",".
Proof.
  unfold String_range. rewrite keys_loop. cbn [app].
  pose proof (copy_loop [] (sort.Strings order.*1)) as Hc.
  cbn [app length] in Hc. by rewrite Hc.
Qed.

Lemma String_range_order (order : list (string * Desc)) (m : metrics) :
  range_of m order → String_range order = metrics_String m.
Proof.
  intros Hr. unfold metrics_String. rewrite !String_range_eq.
  f_equal. apply sort_Strings_Permutation. by rewrite Hr.
Qed.

(** C8: whatever the order in which the catalog is enumerated,
    [metrics.String] is the five catalog keys in ascending order joined
    by commas, and that string is the default of the selection flag. *)
Theorem metrics_String_sorted_keys (order : list (string * Desc)) :
  range_of pushStreamMetrics order →
  String_range order
  = "channels,published_messages,stored_messages,subscribers,subscribers_total"
  ∧ strings.Split (String_range order) ","
    = ["channels"; "published_messages"; "stored_messages"; "subscribers";
       "subscribers_total"]
  ∧ Sorted String.le (strings.Split (String_range order) ",")
  ∧ strings.Split (String_range order) "," ≡ₚ order.*1
  ∧ nginxMetricFields_default = String_range order.
Proof.
  intros Hr. rewrite (String_range_order order pushStreamMetrics Hr).
  assert (metrics_String pushStreamMetrics
          = "channels,published_messages,stored_messages,subscribers,subscribers_total")
    as -> by by vm_compute.
  split; [done|]. split; [done|]. split; [|split; [|done]].
  - assert (strings.Split
              "channels,published_messages,stored_messages,subscribers,subscribers_total" ","
            = sort.Strings (map_to_list pushStreamMetrics).*1) as -> by by vm_compute.
    apply Sorted_merge_sort, _.
  - rewrite Hr.
    assert (strings.Split
              "channels,published_messages,stored_messages,subscribers,subscribers_total" ","
            = sort.Strings (map_to_list pushStreamMetrics).*1) as -> by by vm_compute.
    apply merge_sort_Permutation.
Qed.

Lemma metrics_String_sorted_keys_witness :
  String_range (map_to_list pushStreamMetrics)
  = "channels,published_messages,stored_messages,subscribers,subscribers_total".
Proof.
  exact (proj1 (metrics_String_sorted_keys (map_to_list pushStreamMetrics) (range_of_refl _))).
Defined.

(** ** Splitting what was joined *)

Lemma Split_pieces (s : string) (sep : ascii) :
  Forall (λ p, strings.Split p sep = [p]) (strings.Split s sep).
Proof.
  induction s as [|c s IH]; simpl.
  - by repeat constructor.
  - destruct (Ascii.eqb c sep) eqn:Hc.
    + by constructor.
    + destruct (strings.Split s sep) as [|q qs] eqn:Hs.
      { by destruct (Split_nonempty s sep). }
      apply Forall_cons in IH as [Hq Hqs]. constructor; [|done].
      simpl. by rewrite Hc, Hq.
Qed.

Lemma Split_app_sep (p rest : string) (sep : ascii) :
  strings.Split p sep = [p] →
  strings.Split (p +:+ String sep rest) sep = p :: strings.Split rest sep.
Proof.
  induction p as [|c p IH]; simpl.
  - intros _. by rewrite Ascii.eqb_refl.
  - destruct (Ascii.eqb c sep) eqn:Hc.
    + intros Heq. by destruct (Split_nonempty p sep); simplify_eq.
    + destruct (strings.Split p sep) as [|q qs] eqn:Hs.
      { by destruct (Split_nonempty p sep). }
      intros Heq. simplify_eq. by rewrite IH.
Qed.

Lemma Split_Join (l : list string) (sep : ascii) :
  l ≠ [] → Forall (λ p, strings.Split p sep = [p]) l →
  strings.Split (strings.Join l (String sep "")) sep = l.
Proof.
  unfold strings.Join. induction l as [|p l IH]; [done|].
  intros _ [Hp Hl]%Forall_cons. destruct l as [|q l].
  - done.
  - change (String.concat (String sep "") (p :: q :: l))
      with (p +:+ String sep (String.concat (String sep "") (q :: l))).
    rewrite Split_app_sep by done. f_equal. by apply IH.
Qed.

(** C10: for every selection the filtered map is a sub-map of the
    five-entry catalog (every key it has is a catalog key bound to the
    catalog's descriptor), it has at most five entries, and repeating a
    key in the selection changes nothing: the selection with its
    duplicate pieces removed gives the same map. *)
Theorem filterMetrics_submap (order : list (string * Desc)) (filter : string) :
  range_of pushStreamMetrics order →
  filterMetrics_range order filter ⊆ pushStreamMetrics
  ∧ (∀ k d, filterMetrics_range order filter !! k = Some d →
            pushStreamMetrics !! k = Some d
            ∧ k ∈ ["channels"; "subscribers"; "published_messages"; "stored_messages";
                   "subscribers_total"])
  ∧ size pushStreamMetrics = 5%nat
  ∧ (size (filterMetrics_range order filter) ≤ 5)%nat
  ∧ filterMetrics_range order
      (strings.Join (remove_dups (strings.Split filter ",")) ",")
    = filterMetrics_range order filter.
Proof.
  intros Hr.
  assert (filterMetrics_range order filter ⊆ pushStreamMetrics) as Hsub.
  { destruct (filterMetrics_exact_tokens_aux order filter Hr) as [_ ->].
    apply map_filter_subseteq. }
  assert (size pushStreamMetrics = 5%nat) as Hsize by by vm_compute.
  split; [done|]. split; [|split; [done|split]].
  - intros k d Hk. pose proof (lookup_weaken _ _ _ _ Hk Hsub) as Hc.
    split; [done|].
    assert (k ∈ (map_to_list pushStreamMetrics).*1) as Hin.
    { apply list_elem_of_fmap. exists (k, d). split; [done|].
      by apply elem_of_map_to_list. }
    revert Hin. assert ((map_to_list pushStreamMetrics).*1
      = ["subscribers_total"; "subscribers"; "stored_messages"; "channels";
         "published_messages"]) as -> by by vm_compute.
    rewrite !elem_of_cons, !elem_of_nil. tauto.
  - rewrite <-Hsize. by apply map_subseteq_size.
  - apply map_eq; intros k.
    rewrite (filterMetrics_range_lookup order filter) by done.
    rewrite (filterMetrics_range_lookup order (strings.Join _ _)) by done.
    rewrite (Split_Join _ ",").
    + destruct (decide (k ∈ remove_dups _)) as [Hin|Hnin].
      * rewrite decide_True; [reflexivity|]. apply elem_of_remove_dups, Hin.
      * rewrite decide_False; [reflexivity|].
        intros Hin. apply Hnin, elem_of_remove_dups, Hin.
    + pose proof (Split_nonempty filter ",") as Hne.
      destruct (strings.Split filter ",") as [|p l]; [done|].
      intros Heq. assert (p ∈ remove_dups (p :: l)) as Hin
        by (apply elem_of_remove_dups; left).
      rewrite Heq in Hin. by apply elem_of_nil in Hin.
    + pose proof (Split_pieces filter ",") as HF. rewrite Forall_forall in HF.
      apply Forall_forall. intros p Hp. apply HF, elem_of_remove_dups, Hp.
Qed.

Lemma filterMetrics_submap_witness :
  filterMetrics_range (map_to_list pushStreamMetrics)
    (strings.Join (remove_dups (strings.Split "channels,channels,subscribers" ",")) ",")
  = filterMetrics_range (map_to_list pushStreamMetrics) "channels,channels,subscribers".
Proof.
  apply (filterMetrics_submap (map_to_list pushStreamMetrics)
           "channels,channels,subscribers" (range_of_refl _)).
Defined.

(** ** The loops of [scrape] *)

Lemma bind_Return {A B} (m : M A) (f : A → M B) w a w' :
  m w = Return a w' → (m ≫= f) w = f a w'.
Proof. intros Hm. unfold mbind, M_bind. by rewrite Hm. Qed.

Lemma bind_Panic {A B} (m : M A) (f : A → M B) w reason w' :
  m w = Panic reason w' → (m ≫= f) w = Panic reason w'.
Proof. intros Hm. unfold mbind, M_bind. by rewrite Hm. Qed.

Lemma world_app_nil w : mkWorld (ch w ++ []) (totalScrapes w) = w.
Proof. destruct w. simpl. by rewrite app_nil_r. Qed.

(** A loop whose every round returns and only appends to the channel. *)
Lemma foldM_appends {A B} (f : B → A → M B) (g : B → A → B) (out : A → list Metric)
    (P : A → Prop) (l : list A) (b : B) (w : world) :
  (∀ b a w, P a → f b a w = Return (g b a) (mkWorld (ch w ++ out a) (totalScrapes w))) →
  Forall P l →
  foldM f b l w = Return (foldl g b l) (mkWorld (ch w ++ (l ≫= out)) (totalScrapes w)).
Proof.
  intros Hf HP. revert b w. induction HP as [|a l Ha HP IH]; intros b w; simpl.
  - by rewrite world_app_nil.
  - erewrite bind_Return by by apply Hf.
    rewrite IH. simpl. by rewrite app_assoc.
Qed.

Ltac case_key key tag :=
  destruct (String.eqb_spec key tag) as [->|?]; simpl.

Lemma scrape_infoFields_int64 (key : string) (val : Desc) (c : Channel Z) total w :
  selectable (key, val) →
  scrape_info key val total (Some c) w
  = Return (if decide (key = "subscribers_total") then add64 total (Subscribers c)
            else total)
           (mkWorld (ch w ++ info_samples key val c) (totalScrapes w)).
Proof.
  intros [Hk Hl]. simpl in Hk, Hl.
  unfold scrape_info, Channel_fields, info_samples, scrape_infoField,
    MustNewConstMetric, send; simpl.
  rewrite Hl. unfold mbind, M_bind, mret, M_ret. simpl.
  rewrite !andb_false_r, andb_true_r.
  case_key key "channel"; [congruence|].
  case_key key "published_messages"; [done|].
  case_key key "stored_messages"; [done|].
  case_key key "subscribers"; [done|].
  repeat case_decide; try congruence.
  all: case_key key "subscribers_total"; try congruence; by rewrite world_app_nil.
Qed.

Lemma scrape_infos_int64 (key : string) (val : Desc) (cs : list (Channel Z)) total w :
  selectable (key, val) →
  foldM (scrape_info key val) total (Some <$> cs) w
  = Return (if decide (key = "subscribers_total")
            then sum64 total (Subscribers <$> cs) else total)
           (mkWorld (ch w ++ (cs ≫= info_samples key val)) (totalScrapes w)).
Proof.
  intros Hs. revert total w. induction cs as [|c cs IH]; intros total w; simpl.
  - rewrite world_app_nil. by case_decide.
  - erewrite bind_Return by by apply scrape_infoFields_int64.
    rewrite IH. simpl. rewrite app_assoc. by case_decide.
Qed.

Lemma scrape_key_int64 (n : Z) (cs : list (Channel Z)) total (entry : string * Desc) w :
  selectable entry →
  scrape_key (Some (mkPushStream n (Some <$> cs))) total entry w
  = Return (if decide (entry.1 = "subscribers_total")
            then sum64 total (Subscribers <$> cs) else total)
           (mkWorld (ch w ++ key_samples n cs entry) (totalScrapes w)).
Proof.
  destruct entry as [key val]. intros Hs. pose proof Hs as [_ Hl]. simpl in Hl.
  unfold scrape_key, PushStream_fields, key_samples. simpl.
  unfold MustNewConstMetric, send. simpl. rewrite Hl.
  unfold mbind at 1 2, M_bind, mret, M_ret. simpl.
  case_key key "channels".
  - rewrite scrape_infos_int64 by done. simpl. by rewrite <-app_assoc.
  - rewrite (decide_False (P := key = "channels")) by done.
    by rewrite scrape_infos_int64 by done.
Qed.

Lemma scrape_keys_int64 (n : Z) (cs : list (Channel Z)) total order w :
  Forall selectable order →
  foldM (scrape_key (Some (mkPushStream n (Some <$> cs)))) total order w
  = Return (foldl (λ t (entry : string * Desc),
                     if decide (entry.1 = "subscribers_total")
                     then sum64 t (Subscribers <$> cs) else t) total order)
           (mkWorld (ch w ++ (order ≫= key_samples n cs)) (totalScrapes w)).
Proof.
  intros Hs. apply (foldM_appends _ _ _ selectable); [|done].
  intros. by apply scrape_key_int64.
Qed.

(** With distinct keys the sum is taken in the round of
    [subscribers_total] and in no other. *)
Lemma total_loop {V} (f : Z → Z) (order : list (string * V)) (total : Z) :
  NoDup order.*1 →
  foldl (λ t (entry : string * V),
           if decide (entry.1 = "subscribers_total") then f t else t) total order
  = if decide ("subscribers_total" ∈ order.*1) then f total else total.
Proof.
  revert total. induction order as [|[k v] order IH]; intros total Hnd.
  - cbn [foldl fmap list_fmap]. case_decide as Hin; [|done].
    by apply elem_of_nil in Hin.
  - cbn [foldl fmap list_fmap fst] in *.
    apply NoDup_cons in Hnd as [Hk Hnd]. rewrite IH by done.
    destruct (decide (k = "subscribers_total")) as [->|Hne].
    + rewrite (decide_False (P := _ ∈ order.*1)) by done.
      rewrite decide_True; [done|]. by left.
    + destruct (decide ("subscribers_total" ∈ order.*1)) as [Hin|Hnin].
      * rewrite decide_True; [done|]. by right.
      * rewrite decide_False; [done|].
        intros [?|?]%elem_of_cons; congruence.
Qed.

Lemma range_of_lookup {V} (m : gmap string V) order k :
  range_of m order → (k ∈ order.*1 ↔ is_Some (m !! k)).
Proof.
  intros Hr. rewrite Hr. rewrite list_elem_of_fmap. split.
  - intros [[k' v] [-> Hin%elem_of_map_to_list]]. by eexists.
  - intros [v Hv]. exists (k, v). split; [done|]. by apply elem_of_map_to_list.
Qed.

(** ** Decoding well-formed responses *)

Arguments json.store_int64 : simpl never.

Lemma store_int64_ok (z old : Z) :
  is_int64 z → json.store_int64 (json.Number (json.Integer z)) old = (z, None).
Proof.
  intros [Hlo Hhi]. unfold json.store_int64.
  apply Z.leb_le in Hlo. apply Z.ltb_lt in Hhi. by rewrite Hlo, Hhi.
Qed.

Lemma findField_tags :
  json.findField Channel_tags "channel" = Some 0%nat
  ∧ json.findField Channel_tags "published_messages" = Some 1%nat
  ∧ json.findField Channel_tags "stored_messages" = Some 2%nat
  ∧ json.findField Channel_tags "subscribers" = Some 3%nat
  ∧ json.findField PushStream_tags "channels" = Some 0%nat
  ∧ json.findField PushStream_tags "infos" = Some 1%nat.
Proof. repeat split; by vm_compute. Qed.

Lemma Channel_member_native (c : Channel Z) (s : string) (z : Z) :
  is_int64 z →
  Channel_member c ("channel", json.Str s)
  = (mkChannel s (PublishedMessages c) (StoredMessages c) (Subscribers c), None)
  ∧ Channel_member c ("published_messages", json.Number (json.Integer z))
    = (mkChannel (channel c) z (StoredMessages c) (Subscribers c), None)
  ∧ Channel_member c ("stored_messages", json.Number (json.Integer z))
    = (mkChannel (channel c) (PublishedMessages c) z (Subscribers c), None)
  ∧ Channel_member c ("subscribers", json.Number (json.Integer z))
    = (mkChannel (channel c) (PublishedMessages c) (StoredMessages c) z, None).
Proof.
  intros Hz. unfold Channel_member.
  destruct findField_tags as (-> & -> & -> & -> & _). simpl.
  by rewrite !store_int64_ok by done.
Qed.

Lemma Channel_ptr_native (c : Channel Z) (p : option (Channel Z)) :
  int64_channel c → Channel_ptr (native_channel c) p = (Some c, None).
Proof.
  intros (Hp & Hs & Hu). destruct c as [name pm sm su]. simpl in *.
  unfold Channel_ptr, native_channel, Channel_object. cbn [foldl].
  rewrite (proj1 (Channel_member_native _ name 0 ltac:(done))). cbv beta iota.
  rewrite (proj1 (proj2 (Channel_member_native _ name pm Hp))). cbv beta iota.
  rewrite (proj1 (proj2 (proj2 (Channel_member_native _ name sm Hs)))). cbv beta iota.
  rewrite (proj2 (proj2 (proj2 (Channel_member_native _ name su Hu)))). by cbn.
Qed.

Lemma Infos_array_native (cs : list (Channel Z)) (old : list (option (Channel Z))) :
  Forall int64_channel cs →
  Infos_array (native_channel <$> cs) old = (Some <$> cs, None).
Proof.
  intros Hcs. revert old. induction Hcs as [|c cs Hc Hcs IH]; intros old; [done|].
  cbn [fmap list_fmap Infos_array]. rewrite Channel_ptr_native by done.
  change (list_fmap _ _ native_channel cs) with (native_channel <$> cs).
  by rewrite IH.
Qed.

Lemma PushStream_member_native (ps : PushStream Z) (n : Z) (cs : list (Channel Z)) :
  is_int64 n → Forall int64_channel cs →
  PushStream_member ps ("channels", json.Number (json.Integer n))
  = (mkPushStream n (Infos ps), None)
  ∧ PushStream_member ps ("infos", json.Array (native_channel <$> cs))
    = (mkPushStream (Channels ps) (Some <$> cs), None).
Proof.
  intros Hn Hcs. unfold PushStream_member.
  destruct findField_tags as (_ & _ & _ & _ & -> & ->). simpl.
  by rewrite store_int64_ok, Infos_array_native by done.
Qed.

Lemma Decode_native (n : Z) (cs : list (Channel Z)) :
  is_int64 n → Forall int64_channel cs →
  Decode (json.Document (native_payload n cs)) NewPushStream
  = (Some (mkPushStream n (Some <$> cs)), None).
Proof.
  intros Hn Hcs. unfold Decode, native_payload, NewPushStream, PushStream_object.
  cbn [foldl].
  rewrite (proj1 (PushStream_member_native _ n cs Hn Hcs)). cbv beta iota.
  rewrite (proj2 (PushStream_member_native _ n cs Hn Hcs)). by cbn.
Qed.

(** ** [scrape] after the decoder *)

Section scrape_glue.
Context {T : Type} `{Counter T}.

Lemma scrape_decode_error (e : Exporter) order body ps err w :
  Decode body NewPushStream = (ps, Some err) →
  scrape e order (Some body) w = Return 0 (mkWorld (ch w) (totalScrapes w + 1)).
Proof. intros Hd. unfold scrape, mbind, M_bind, Inc. by rewrite Hd. Qed.

Lemma scrape_decoded (e : Exporter) order body ps total w w' :
  Decode body NewPushStream = (ps, None) →
  foldM (scrape_key ps) 0 order (mkWorld (ch w) (totalScrapes w + 1)) = Return total w' →
  scrape e order (Some body) w
  = match e_pushStreamMetrics e !! "subscribers_total" with
    | Some d =>
        if (1 =? length (variableLabels d))%nat
        then Return 1 (mkWorld (ch w' ++ [mkMetric d total ["all"]]) (totalScrapes w'))
        else Panic "inconsistent label cardinality" w'
    | None => Panic "invalid memory address or nil pointer dereference" w'
    end.
Proof.
  intros Hd Hl. unfold scrape, mbind, M_bind, Inc. rewrite Hd, Hl.
  unfold MustNewConstMetric. destruct (_ !! _) as [d|]; [|done].
  change (length ["all"]) with 1%nat.
  by destruct (1 =? length (variableLabels d))%nat.
Qed.

Lemma scrape_decoded_panic (e : Exporter) order body ps reason w w' :
  Decode body NewPushStream = (ps, None) →
  foldM (scrape_key ps) 0 order (mkWorld (ch w) (totalScrapes w + 1)) = Panic reason w' →
  scrape e order (Some body) w = Panic reason w'.
Proof. intros Hd Hl. unfold scrape, mbind, M_bind, Inc. by rewrite Hd, Hl. Qed.

End scrape_glue.

(** A record with [int64] counters and no [nil] channel: every selected
    metric contributes its samples; the sum is taken only when
    [subscribers_total] is among the selected ones, and the final sample
    needs its descriptor in the selected map. *)
Lemma scrape_int64 (e : Exporter) order body (n : Z) (cs : list (Channel Z)) w :
  Decode body NewPushStream = (Some (mkPushStream n (Some <$> cs)), None) →
  range_of (e_pushStreamMetrics e) order → Forall selectable order →
  scrape (T:=Z) e order (Some body) w
  = match e_pushStreamMetrics e !! "subscribers_total" with
    | Some d =>
        Return 1 (mkWorld (ch w ++ (order ≫= key_samples n cs)
                             ++ [mkMetric d (sum64 0 (Subscribers <$> cs)) ["all"]])
                          (totalScrapes w + 1))
    | None =>
        Panic "invalid memory address or nil pointer dereference"
              (mkWorld (ch w ++ (order ≫= key_samples n cs)) (totalScrapes w + 1))
    end.
Proof.
  intros Hdec Hr Hs.
  erewrite scrape_decoded; [|exact Hdec|by apply scrape_keys_int64].
  rewrite total_loop by by eapply range_of_NoDup. simpl.
  destruct (e_pushStreamMetrics e !! "subscribers_total") as [d|] eqn:Hd; [|done].
  assert ((d.(variableLabels) : list string) ≠ [] ∧ length (variableLabels d) = 1%nat)
    as [_ ->].
  { assert (("subscribers_total", d) ∈ order) as Hin.
    { rewrite Hr. by apply elem_of_map_to_list. }
    destruct (proj1 (Forall_forall _ _) Hs _ Hin) as [_ Hl]. simpl in Hl.
    split; [|done]. by destruct (variableLabels d). }
  simpl. rewrite decide_True; [by rewrite <-app_assoc|].
  apply (range_of_lookup _ _ _ Hr). by eexists.
Qed.

(** ** The full catalog on a record with [int64] counters *)



Lemma catalog_selectable (filter : string) (order : list (string * Desc)) :
  range_of (filterMetrics filter) order → Forall selectable order.
Proof.
  intros Hr. apply Forall_forall. intros [k d] Hin.
  rewrite Hr in Hin. apply elem_of_map_to_list in Hin.
  unfold filterMetrics in Hin.
  rewrite filterMetrics_range_lookup in Hin by by unfold range_of.
  case_decide; [|done].
  assert ((k, d) ∈ map_to_list pushStreamMetrics) as Hc by by apply elem_of_map_to_list.
  revert Hc.
  let l := eval vm_compute in (map_to_list pushStreamMetrics) in
  assert (map_to_list pushStreamMetrics = l) as -> by by vm_compute.
  rewrite !elem_of_cons, elem_of_nil.
  intros [?|[?|[?|[?|[?|[]]]]]]; simplify_eq; by split.
Qed.





(** ** The loops of [scrape] on a record with [string] counters *)

Lemma scrape_infoFields_string (key : string) (val : Desc) (c : Channel string) total w :
  scrape_info key val total (Some c) w
  = if decide (key ∈ Channel_tags)
    then Panic "reflect: call of reflect.Value.Int on string Value" w
    else Return (if decide (key = "subscribers_total")
                 then add64 total (Atoi_or_0 (Subscribers c)) else total) w.
Proof.
  unfold scrape_info, Channel_fields, scrape_infoField, Value_Int, Atoi_or_0. simpl.
  unfold mbind, M_bind, mret, M_ret, panic. simpl.
  rewrite !andb_false_r, andb_true_r.
  case_key key "channel"; [done|].
  case_key key "published_messages"; [done|].
  case_key key "stored_messages"; [done|].
  case_key key "subscribers"; [done|].
  rewrite decide_False.
  2:{ unfold Channel_tags. rewrite !elem_of_cons, elem_of_nil. tauto. }
  case_key key "subscribers_total"; [|by rewrite decide_False].
  by destruct (strconv.Atoi (Subscribers c)).
Qed.

Lemma scrape_infos_string (key : string) (val : Desc) (cs : list (Channel string)) total w :
  foldM (scrape_info key val) total (Some <$> cs) w
  = if decide (key ∈ Channel_tags ∧ cs ≠ [])
    then Panic "reflect: call of reflect.Value.Int on string Value" w
    else Return (if decide (key = "subscribers_total")
                 then sum64 total (subscriber_values cs) else total) w.
Proof.
  revert total. induction cs as [|c cs IH]; intros total.
  - simpl. rewrite decide_False by naive_solver. by case_decide.
  - cbn [fmap list_fmap foldM]. unfold mbind, M_bind.
    rewrite scrape_infoFields_string.
    destruct (decide (key ∈ Channel_tags)) as [Hk|Hk].
    + by rewrite decide_True.
    + change (list_fmap _ _ Some cs) with (Some <$> cs). rewrite IH.
      rewrite !(decide_False (P := _ ∧ _)) by naive_solver.
      by repeat case_decide.
Qed.

Lemma scrape_key_string (n : string) (cs : list (Channel string)) total
    (entry : string * Desc) w :
  scrape_key (Some (mkPushStream n (Some <$> cs))) total entry w
  = if decide (entry.1 ∈ Channel_tags ∧ cs ≠ [])
    then Panic "reflect: call of reflect.Value.Int on string Value" w
    else Return (if decide (entry.1 = "subscribers_total")
                 then sum64 total (subscriber_values cs) else total) w.
Proof.
  destruct entry as [key val].
  unfold scrape_key, PushStream_fields. simpl.
  unfold mbind at 1 2, M_bind, mret, M_ret. simpl.
  rewrite scrape_infos_string. by case_decide.
Qed.

Lemma scrape_keys_string (n : string) (cs : list (Channel string)) total order w :
  foldM (scrape_key (Some (mkPushStream n (Some <$> cs)))) total order w
  = if decide (Exists (λ entry : string * Desc, entry.1 ∈ Channel_tags) order ∧ cs ≠ [])
    then Panic "reflect: call of reflect.Value.Int on string Value" w
    else Return (foldl (λ t (entry : string * Desc),
                          if decide (entry.1 = "subscribers_total")
                          then sum64 t (subscriber_values cs) else t) total order) w.
Proof.
  revert total. induction order as [|entry order IH]; intros total.
  - cbn [foldM foldl]. case_decide as Hd; [|done].
    destruct Hd as [Hex _]. by apply Exists_nil in Hex.
  - cbn [foldM foldl]. unfold mbind, M_bind. rewrite scrape_key_string.
    destruct (decide (entry.1 ∈ Channel_tags ∧ cs ≠ [])) as [[Hk Hcs]|Hk].
    + rewrite decide_True; [done|]. split; [by left|done].
    + rewrite IH. destruct (decide (Exists _ order ∧ cs ≠ [])) as [[Hex Hcs]|Hne].
      * rewrite decide_True; [done|]. split; [by right|done].
      * rewrite (decide_False (P := _ ∧ _)); [done|].
        intros [Hex Hcs]. apply Exists_cons in Hex. naive_solver.
Qed.

(** ** Sums in [int64] *)






(** ** [Collect] after [scrape] *)

Section Collect.
Context {T : Type} `{Counter T}.

Lemma Collect_Return (e : Exporter) order fetched w up w' :
  scrape e order fetched w = Return up w' →
  Collect e order fetched w
  = Return () (mkWorld (ch w' ++ [mkMetric nginxUp up [];
                                  mkMetric totalScrapes_desc (totalScrapes w') []])
                       (totalScrapes w')).
Proof.
  intros Hs. unfold Collect, mbind, M_bind. rewrite Hs. simpl.
  unfold send. simpl. by rewrite <-app_assoc.
Qed.

Lemma Collect_Panic (e : Exporter) order fetched w reason w' :
  scrape e order fetched w = Panic reason w' →
  Collect e order fetched w = Panic reason w'.
Proof. intros Hs. unfold Collect, mbind, M_bind. by rewrite Hs. Qed.

End Collect.

(** ** Selections without [subscribers_total] *)

Lemma filterMetrics_lookup (filter k : string) :
  filterMetrics filter !! k
  = if decide (k ∈ strings.Split filter ",") then pushStreamMetrics !! k else None.
Proof. apply filterMetrics_range_lookup, range_of_refl. Qed.

Lemma catalog_fqName (k : string) (d : Desc) :
  pushStreamMetrics !! k = Some d → fqName d = fq k.
Proof.
  intros Hk%elem_of_map_to_list. revert Hk.
  let l := eval vm_compute in (map_to_list pushStreamMetrics) in
  assert (map_to_list pushStreamMetrics = l) as -> by by vm_compute.
  rewrite !elem_of_cons, elem_of_nil.
  intros [?|[?|[?|[?|[?|[]]]]]]; by simplify_eq.
Qed.

Lemma fq_inj (k1 k2 : string) : fq k1 = fq k2 → k1 ≠ "" → k2 ≠ "" → k1 = k2.
Proof.
  unfold fq, BuildFQName. intros Heq H1 H2.
  destruct (String.eqb_spec k1 ""); [done|]. destruct (String.eqb_spec k2 ""); [done|].
  simpl in Heq. by simplify_eq.
Qed.

Lemma key_samples_desc (n : Z) (cs : list (Channel Z)) (entry : string * Desc) (m : Metric) :
  m ∈ key_samples n cs entry → desc m = entry.2.
Proof.
  unfold key_samples, info_samples. rewrite elem_of_app, list_elem_of_bind.
  intros [Hm|(c & Hm & _)].
  - case_decide; [|by apply elem_of_nil in Hm]. by apply list_elem_of_singleton in Hm as ->.
  - rewrite !elem_of_app in Hm.
    repeat case_decide; rewrite ?list_elem_of_singleton, ?elem_of_nil in Hm;
      naive_solver.
Qed.

Lemma scrape_unselected (filter : string) order body (n : Z) (cs : list (Channel Z)) w :
  "subscribers_total" ∉ strings.Split filter "," →
  range_of (filterMetrics filter) order →
  Decode body NewPushStream = (Some (mkPushStream n (Some <$> cs)), None) →
  scrape (T:=Z) (main_exporter filter) order (Some body) w
  = Panic "invalid memory address or nil pointer dereference"
          (mkWorld (ch w ++ (order ≫= key_samples n cs)) (totalScrapes w + 1))
  ∧ Forall (λ m, fqName (desc m) ≠ fq "subscribers_total") (order ≫= key_samples n cs).
Proof.
  intros Hsel Hr Hd. split.
  - rewrite (scrape_int64 (main_exporter filter) order body n cs w Hd Hr);
      [|by eapply catalog_selectable].
    simpl. rewrite filterMetrics_lookup. by rewrite decide_False.
  - apply Forall_forall. intros m ([k d] & Hm & Hin)%list_elem_of_bind.
    apply key_samples_desc in Hm. simpl in Hm. rewrite Hm.
    rewrite Hr in Hin. apply elem_of_map_to_list in Hin.
    rewrite filterMetrics_lookup in Hin. case_decide as Hk; [|done].
    rewrite (catalog_fqName k d Hin). intros Heq.
    apply fq_inj in Heq; [by subst|by intros ->|done].
Qed.

(** C2, what the code does instead: when [subscribers_total] is not one
    of the selected keys (the empty selection included) and the response
    decodes to a record with [int64] counters, the descriptor looked up
    for the final sample is [nil] and the scrape panics; nothing that was
    sent is a [subscribers_total] sample, and [Collect] sends neither
    liveness nor counter. *)
Theorem subscribers_total_unselected (filter : string) order body (n : Z)
    (cs : list (Channel Z)) w :
  "subscribers_total" ∉ strings.Split filter "," →
  range_of (filterMetrics filter) order →
  Decode body NewPushStream = (Some (mkPushStream n (Some <$> cs)), None) →
  scrape (T:=Z) (main_exporter filter) order (Some body) w
  = Panic "invalid memory address or nil pointer dereference"
          (mkWorld (ch w ++ (order ≫= key_samples n cs)) (totalScrapes w + 1))
  ∧ Forall (λ m, fqName (desc m) ≠ fq "subscribers_total") (order ≫= key_samples n cs)
  ∧ Collect (T:=Z) (main_exporter filter) order (Some body) w
    = Panic "invalid memory address or nil pointer dereference"
            (mkWorld (ch w ++ (order ≫= key_samples n cs)) (totalScrapes w + 1)).
Proof.
  intros Hsel Hr Hd.
  destruct (scrape_unselected filter order body n cs w Hsel Hr Hd) as [Hs Hf].
  split; [done|]. split; [done|]. by apply Collect_Panic.
Qed.

Lemma subscribers_total_unselected_witness :
  scrape (T:=Z) (main_exporter "channels") (map_to_list (filterMetrics "channels"))
         (Some (json.Document scenario_payload)) w0
  = Panic "invalid memory address or nil pointer dereference"
          (mkWorld (ch w0 ++ (map_to_list (filterMetrics "channels")
                                ≫= key_samples 2 [mkChannel "a" 10 3 5; mkChannel "b" 1 0 2]))
                   (totalScrapes w0 + 1)).
Proof.
  assert ("subscribers_total" ∉ strings.Split "channels" ",") as Hsel
    by (apply (bool_decide_unpack _); vm_compute; exact I).
  assert (Decode (json.Document scenario_payload) NewPushStream
          = (Some (mkPushStream 2 (Some <$> [mkChannel "a" 10 3 5; mkChannel "b" 1 0 2])),
             None)) as Hd by (vm_compute; reflexivity).
  exact (proj1 (subscribers_total_unselected "channels" _ _ 2 _ w0
                  Hsel (range_of_refl _) Hd)).
Defined.

(** C6: the filter maps the empty selection to the empty map, whatever
    the enumeration order; a scrape with that map on a response that
    decodes without error sends no sample, but it does not succeed: the
    descriptor of the final [subscribers_total] sample is [nil], the
    scrape panics, and [Collect] sends no liveness sample. *)
Theorem empty_selection_panics {T : Type} `{Counter T}
    (corder order : list (string * Desc)) (body : json.stream)
    (ps : option (PushStream T)) (w : world) :
  range_of pushStreamMetrics corder →
  range_of (filterMetrics "") order →
  Decode body NewPushStream = (ps, None) →
  filterMetrics_range corder "" = ∅
  ∧ order = []
  ∧ scrape (T:=T) (main_exporter "") order (Some body) w
    = Panic "invalid memory address or nil pointer dereference"
            (mkWorld (ch w) (totalScrapes w + 1))
  ∧ Collect (T:=T) (main_exporter "") order (Some body) w
    = Panic "invalid memory address or nil pointer dereference"
            (mkWorld (ch w) (totalScrapes w + 1)).
Proof.
  intros Hc Hr Hd. split; [done|].
  assert (order = []) as ->.
  { apply Permutation_nil_r. by rewrite Hr. }
  split; [done|].
  assert (scrape (T:=T) (main_exporter "") [] (Some body) w
          = Panic "invalid memory address or nil pointer dereference"
                  (mkWorld (ch w) (totalScrapes w + 1))) as Hs.
  { by erewrite scrape_decoded by done. }
  split; [done|]. by apply Collect_Panic.
Qed.

Lemma empty_selection_panics_witness :
  scrape (T:=Z) (main_exporter "") [] (Some (json.Document scenario_payload)) w0
  = Panic "invalid memory address or nil pointer dereference"
          (mkWorld (ch w0) (totalScrapes w0 + 1)).
Proof.
  assert (Decode (json.Document scenario_payload) NewPushStream
          = (Some (mkPushStream 2 [Some (mkChannel "a" 10 3 5); Some (mkChannel "b" 1 0 2)]),
             None)) as Hd by (vm_compute; reflexivity).
  assert (range_of (filterMetrics "") []) as Hr by (vm_compute; reflexivity).
  exact (proj1 (proj2 (proj2 (empty_selection_panics (T:=Z)
                                (map_to_list pushStreamMetrics) []
                                (json.Document scenario_payload) _ w0
                                (range_of_refl _) Hr Hd)))).
Defined.

(** ** A record with [string] counters *)

(** No sample is sent before the final one: the top-level count is not
    an [int64], a selected per-channel metric panics at the first channel,
    and [subscribers_total] is summed through [strconv.Atoi]. *)
Lemma scrape_string (e : Exporter) order body (n : string) (cs : list (Channel string)) w :
  Decode body NewPushStream = (Some (mkPushStream n (Some <$> cs)), None) →
  range_of (e_pushStreamMetrics e) order →
  scrape (T:=string) e order (Some body) w
  = if decide (Exists (λ entry : string * Desc, entry.1 ∈ Channel_tags) order ∧ cs ≠ [])
    then Panic "reflect: call of reflect.Value.Int on string Value"
               (mkWorld (ch w) (totalScrapes w + 1))
    else match e_pushStreamMetrics e !! "subscribers_total" with
         | Some d =>
             if (1 =? length (variableLabels d))%nat
             then Return 1 (mkWorld (ch w ++ [mkMetric d (sum64 0 (subscriber_values cs))
                                                       ["all"]])
                                    (totalScrapes w + 1))
             else Panic "inconsistent label cardinality"
                        (mkWorld (ch w) (totalScrapes w + 1))
         | None => Panic "invalid memory address or nil pointer dereference"
                         (mkWorld (ch w) (totalScrapes w + 1))
         end.
Proof.
  intros Hd Hr.
  pose proof (scrape_keys_string n cs 0 order (mkWorld (ch w) (totalScrapes w + 1)))
    as Hl.
  destruct (decide (Exists _ order ∧ cs ≠ [])) as [Hex|Hnex].
  - by erewrite scrape_decoded_panic.
  - erewrite scrape_decoded by done. simpl.
    destruct (e_pushStreamMetrics e !! "subscribers_total") as [d|] eqn:Hst; [|done].
    rewrite total_loop by by eapply range_of_NoDup.
    rewrite decide_True; [done|].
    apply (range_of_lookup _ _ _ Hr). by eexists.
Qed.

Lemma Exists_key {V} (m : gmap string V) order (P : string → Prop) :
  range_of m order →
  Exists (λ entry : string * V, P entry.1) order ↔ ∃ k, P k ∧ is_Some (m !! k).
Proof.
  intros Hr. rewrite Exists_exists. split.
  - intros ([k v] & Hin & HP). exists k. split; [done|].
    apply (range_of_lookup _ _ _ Hr), list_elem_of_fmap. by exists (k, v).
  - intros (k & HP & [v Hv]). exists (k, v). split; [|done].
    rewrite Hr. by apply elem_of_map_to_list.
Qed.

(** C3, what the code does instead: the response of the scenario with
    every counter as a string decodes, but with the full catalog selected
    the scrape panics in [reflect.Value.Int] before any sample is sent,
    whatever the iteration order; and under the selection
    [channels,subscribers_total] it sends the aggregate only, while the
    response with numbers sends the [channels] sample as well. *)
Theorem string_schema_differs (order5 order2 : list (string * Desc)) (w : world) :
  range_of (filterMetrics nginxMetricFields_default) order5 →
  range_of (filterMetrics "channels,subscribers_total") order2 →
  Decode (T:=string) (json.Document scenario_payload_strings) NewPushStream
  = (Some (mkPushStream "2" [Some (mkChannel "a" "10" "3" "5");
                             Some (mkChannel "b" "1" "0" "2")]), None)
  ∧ scrape (T:=string) (main_exporter nginxMetricFields_default) order5
           (Some (json.Document scenario_payload_strings)) w
    = Panic "reflect: call of reflect.Value.Int on string Value"
            (mkWorld (ch w) (totalScrapes w + 1))
  ∧ (∃ d, fqName d = fq "subscribers_total"
     ∧ scrape (T:=string) (main_exporter "channels,subscribers_total") order2
              (Some (json.Document scenario_payload_strings)) w
       = Return 1 (mkWorld (ch w ++ [mkMetric d 7 ["all"]]) (totalScrapes w + 1)))
  ∧ (∃ sent,
       scrape (T:=Z) (main_exporter "channels,subscribers_total") order2
              (Some (json.Document scenario_payload)) w
       = Return 1 (mkWorld (ch w ++ sent) (totalScrapes w + 1))
       ∧ Sample_of <$> sent ≡ₚ [(fq "channels", ["all"], 2);
                                 (fq "subscribers_total", ["all"], 7)]).
Proof.
  intros Hr5 Hr2.
  pose (cs := [mkChannel "a" "10" "3" "5"; mkChannel "b" "1" "0" "2"]).
  assert (Decode (T:=string) (json.Document scenario_payload_strings) NewPushStream
          = (Some (mkPushStream "2" (Some <$> cs)), None))
    as Hd by by vm_compute.
  split; [exact Hd|]. split; [|split].
  - rewrite (scrape_string (main_exporter nginxMetricFields_default) order5
               (json.Document scenario_payload_strings) "2" cs w Hd Hr5).
    rewrite decide_True; [done|].
    split; [|done]. apply (Exists_key _ _ (λ k, k ∈ Channel_tags) Hr5).
    exists "subscribers". split; [apply (bool_decide_unpack _); by vm_compute|].
    eexists. by vm_compute.
  - rewrite (scrape_string (main_exporter "channels,subscribers_total") order2
               (json.Document scenario_payload_strings) "2" cs w Hd Hr2).
    rewrite decide_False.
    2:{ intros [(k & Hk & [d Hs])%(Exists_key _ _ (λ k, k ∈ Channel_tags) Hr2) _].
        simpl in Hs. rewrite filterMetrics_lookup in Hs. case_decide as Hin; [|done].
        revert Hk Hin. unfold Channel_tags.
        assert (strings.Split "channels,subscribers_total" ","
                = ["channels"; "subscribers_total"]) as -> by done.
        rewrite !elem_of_cons, !elem_of_nil. naive_solver. }
    eexists. split; [|by vm_compute]. by vm_compute.
  - assert (is_int64 2) as Hn by (unfold is_int64; lia).
    assert (Forall int64_channel [mkChannel "a" 10 3 5; mkChannel "b" 1 0 2]) as Hcs
      by (repeat constructor; unfold is_int64; simpl; lia).
    rewrite (scrape_int64 (main_exporter "channels,subscribers_total") order2
               (json.Document scenario_payload) 2
               [mkChannel "a" 10 3 5; mkChannel "b" 1 0 2] w
               (Decode_native 2 _ Hn Hcs) Hr2);
      [|by eapply catalog_selectable].
    assert (e_pushStreamMetrics (main_exporter "channels,subscribers_total")
              !! "subscribers_total"
            = Some (newPushStreamMetrics "subscribers_total"
                      "Total current number of connected subscribers on this server."))
      as -> by by vm_compute.
    eexists. split; [done|].
    rewrite fmap_app, Hr2.
    by vm_compute.
Qed.

Lemma string_schema_differs_witness :
  scrape (T:=string) (main_exporter nginxMetricFields_default)
         (map_to_list (filterMetrics nginxMetricFields_default))
         (Some (json.Document scenario_payload_strings)) w0
  = Panic "reflect: call of reflect.Value.Int on string Value"
          (mkWorld (ch w0) (totalScrapes w0 + 1)).
Proof.
  exact (proj1 (proj2 (string_schema_differs
                         (map_to_list (filterMetrics nginxMetricFields_default))
                         (map_to_list (filterMetrics "channels,subscribers_total")) w0
                         (range_of_refl _) (range_of_refl _)))).
Defined.




(** ** Responses the decoder rejects *)

Lemma saveError_is_Some (saved err : option json.error) :
  is_Some saved ∨ is_Some err → is_Some (json.saveError saved err).
Proof. destruct saved; simpl; naive_solver. Qed.

Lemma fold_saveError {S X} (step : S → X → S * option json.error) (l : list X)
    (s : S) (saved : option json.error) :
  is_Some saved ∨ (∃ x, x ∈ l ∧ ∀ s, is_Some (step s x).2) →
  is_Some (foldl (λ '(s, saved) x,
                    let '(s', err) := step s x in (s', json.saveError saved err))
                 (s, saved) l).2.
Proof.
  revert s saved. induction l as [|x l IH]; intros s saved Hor.
  - destruct Hor as [?|(x & Hx & _)]; [done|]. by apply elem_of_nil in Hx.
  - cbn [foldl]. destruct (step s x) as [s' err] eqn:Hstep. apply IH.
    destruct Hor as [Hs|(y & Hy & Herr)].
    + left. apply saveError_is_Some. by left.
    + apply elem_of_cons in Hy as [->|Hy].
      * left. apply saveError_is_Some. right.
        specialize (Herr s). by rewrite Hstep in Herr.
      * right. by exists y.
Qed.

Lemma store_int64_mismatch (v : json.Value) (old : Z) :
  int64_mismatch v = true → is_Some (json.store_int64 v old).2.
Proof.
  unfold json.store_int64. destruct v as [| |[z|]| | |]; simpl; try done.
  intros Hz%negb_true_iff. by rewrite Hz.
Qed.

Lemma Channel_member_mismatch (name : string) (v : json.Value) (i : nat) (c : Channel Z) :
  json.findField Channel_tags name = Some (S i) → (i < 3)%nat →
  int64_mismatch v = true →
  is_Some (Channel_member c (name, v)).2.
Proof.
  intros Hf Hi Hv. unfold Channel_member. rewrite Hf.
  destruct i as [|[|[|]]]; [..|lia]; simpl;
    match goal with
    | |- context [json.store_int64 v ?old] =>
        destruct (store_int64_mismatch v old Hv) as [err Herr];
        destruct (json.store_int64 v old); simpl in *; by subst
    end.
Qed.

Lemma Infos_array_mismatch (elems : list json.Value) fields (name : string)
    (v : json.Value) (i : nat) (old : list (option (Channel Z))) :
  json.Object fields ∈ elems → (name, v) ∈ fields →
  json.findField Channel_tags name = Some (S i) → (i < 3)%nat →
  int64_mismatch v = true →
  is_Some (Infos_array elems old).2.
Proof.
  intros Hin Hm Hf Hi Hv. revert old.
  induction elems as [|el elems IH]; intros old; [by apply elem_of_nil in Hin|].
  cbn [Infos_array].
  destruct (Channel_ptr el (mjoin (head old))) as [p err] eqn:Hp.
  destruct (Infos_array elems (tail old)) as [ps err'] eqn:Hps.
  simpl. apply saveError_is_Some.
  apply elem_of_cons in Hin as [<-|Hin].
  - left. unfold Channel_ptr in Hp.
    pose proof (fold_saveError Channel_member fields
                  (default (mkChannel "" zero zero zero) (mjoin (head old))) None) as Hfold.
    fold (Channel_object fields (default (mkChannel "" zero zero zero) (mjoin (head old))))
      in Hfold.
    destruct (Channel_object fields _) as [c' e'] eqn:Hco. simplify_eq. apply Hfold.
    right. exists (name, v). split; [done|]. intros c.
    by eapply Channel_member_mismatch.
  - right. specialize (IH Hin (tail old)). by rewrite Hps in IH.
Qed.

Lemma Decode_mismatch (v : json.Value) :
  bad_integer_position v →
  is_Some (Decode (T:=Z) (json.Document v) NewPushStream).2.
Proof.
  intros Hbad.
  assert (∀ members,
    (∃ member, member ∈ members ∧ ∀ ps, is_Some (PushStream_member (T:=Z) ps member).2) →
    is_Some (Decode (T:=Z) (json.Document (json.Object members)) NewPushStream).2)
    as Hobj.
  { intros members Hex. unfold Decode, NewPushStream. simpl.
    pose proof (fold_saveError PushStream_member members (mkPushStream 0 []) None) as Hfold.
    fold (PushStream_object members (mkPushStream 0 [])) in Hfold.
    destruct (PushStream_object members _) as [ps' err]. apply Hfold. by right. }
  destruct Hbad as [members name v Hin Hf Hv
                   |members name elems fields name' v i Hin Hf Hel Hm Hf' Hi Hv];
    apply Hobj; eexists; (split; [exact Hin|]); intros ps;
    unfold PushStream_member; rewrite Hf.
  - destruct (store_int64_mismatch v (Channels ps) Hv) as [err Herr].
    simpl. destruct (json.store_int64 v (Channels ps)); simpl in *; by subst.
  - pose proof (Infos_array_mismatch elems fields name' v i (Infos ps) Hel Hm Hf' Hi Hv)
      as [err Herr].
    destruct (Infos_array elems (Infos ps)); simpl in *; by subst.
Qed.

(** C5, at an explicit input: [null] is no number, yet with [null] for
    the top-level count the decoder reports no error (it leaves the count
    at zero), and the scrape succeeds with samples instead of failing. *)
Lemma null_count_is_accepted :
  Decode (T:=Z) (json.Document null_count_payload) NewPushStream
  = (Some (mkPushStream 0 []), None)
  ∧ (∃ w, Collect (T:=Z) (main_exporter nginxMetricFields_default)
            (map_to_list (filterMetrics nginxMetricFields_default))
            (Some (json.Document null_count_payload)) w0
          = Return () w
     ∧ Sample_of <$> ch w
       = [("nginx_push_stream_channels", ["all"], 0);
          ("nginx_push_stream_subscribers_total", ["all"], 0);
          ("nginx_up", [], 1);
          ("nginx_exporter_total_scrapes", [], 1)])
  ∧ scrape (T:=Z) (main_exporter nginxMetricFields_default)
           (map_to_list (filterMetrics nginxMetricFields_default))
           (Some (json.Document null_count_payload)) w0
    ≠ Return 0 (mkWorld [] 1).
Proof.
  split; [by vm_compute|]. split.
  - eexists. split; [by vm_compute|]. by vm_compute.
  - intros Heq. vm_compute in Heq. discriminate Heq.
Qed.

(** C5 as amended: when the body is not well-formed JSON, or holds, where
    an [int64] is decoded (the top-level count or a counter of a channel),
    a value that is neither [null] nor an integer literal in [int64]
    range, the decoder returns an error; the scrape then sends no sample
    and returns [0], the counter has gone up by one, and [Collect] sends
    liveness [0] and the counter.  ([null] in such a position is skipped
    by the decoder and is no error.) *)
Theorem decode_error_fails_scrape (e : Exporter) (order : list (string * Desc))
    (body : json.stream) (w : world) :
  body = json.Malformed ∨ (∃ v, body = json.Document v ∧ bad_integer_position v) →
  (∃ ps err, Decode (T:=Z) body NewPushStream = (ps, Some err))
  ∧ scrape (T:=Z) e order (Some body) w
    = Return 0 (mkWorld (ch w) (totalScrapes w + 1))
  ∧ Collect (T:=Z) e order (Some body) w
    = Return () (mkWorld (ch w ++ [mkMetric nginxUp 0 [];
                                   mkMetric totalScrapes_desc (totalScrapes w + 1) []])
                         (totalScrapes w + 1))
  ∧ bad_integer_position not_a_number_payload.
Proof.
  intros Hbody.
  assert (∃ ps err, Decode (T:=Z) body NewPushStream = (ps, Some err))
    as (ps & err & Hd).
  { destruct Hbody as [->|(v & -> & Hbad)].
    - by eexists _, _.
    - destruct (Decode_mismatch v Hbad) as [err Herr].
      destruct (Decode (json.Document v) NewPushStream) as [ps err'].
      simpl in Herr. subst. by eexists _, _. }
  pose proof (scrape_decode_error e order body ps err w Hd) as Hs.
  split; [by eexists _, _|]. split; [exact Hs|]. split.
  - by rewrite (Collect_Return _ _ _ _ _ _ Hs).
  - eapply (bad_count _ "channels" (json.Str "not-a-number")); [by left|by vm_compute|done].
Qed.

Lemma decode_error_fails_scrape_witness :
  scrape (T:=Z) (main_exporter nginxMetricFields_default)
         (map_to_list (filterMetrics nginxMetricFields_default))
         (Some (json.Document not_a_number_payload)) w0
  = Return 0 (mkWorld (ch w0) (totalScrapes w0 + 1)).
Proof.
  assert (bad_integer_position not_a_number_payload) as Hbad.
  { eapply (bad_count _ "channels" (json.Str "not-a-number")).
    - left.
    - vm_compute. reflexivity.
    - reflexivity. }
  exact (proj1 (proj2 (decode_error_fails_scrape
                         (main_exporter nginxMetricFields_default)
                         (map_to_list (filterMetrics nginxMetricFields_default))
                         (json.Document not_a_number_payload) w0
                         (or_intror (ex_intro _ not_a_number_payload
                                       (conj eq_refl Hbad)))))).
Defined.

(** C9: decoding is a total function, and on an error nothing of the
    record reaches the extraction: the scrape returns [0] and sends
    nothing.  But a body can also decode to neither a record nor an
    error: for the document [null] the decoder sets the pointer to [nil]
    and reports no error, and the scrape goes on and panics. *)
Theorem decode_null_document {T : Type} `{Counter T} (e : Exporter)
    (order : list (string * Desc)) (w : world) :
  range_of (e_pushStreamMetrics e) order →
  (∀ body ps err,
     Decode (T:=T) body NewPushStream = (ps, Some err) →
     scrape (T:=T) e order (Some body) w
     = Return 0 (mkWorld (ch w) (totalScrapes w + 1)))
  ∧ Decode (T:=T) (json.Document json.Null) NewPushStream = (None, None)
  ∧ ∃ reason,
      scrape (T:=T) e order (Some (json.Document json.Null)) w
      = Panic reason (mkWorld (ch w) (totalScrapes w + 1))
      ∧ Collect (T:=T) e order (Some (json.Document json.Null)) w
        = Panic reason (mkWorld (ch w) (totalScrapes w + 1)).
Proof.
  intros Hr. split; [|split; [done|]].
  - intros body ps err Hd. by eapply scrape_decode_error.
  - assert (∃ reason,
      scrape (T:=T) e order (Some (json.Document json.Null)) w
      = Panic reason (mkWorld (ch w) (totalScrapes w + 1))) as [reason Hs].
    { destruct order as [|[key val] order].
      - assert (e_pushStreamMetrics e = ∅) as Hempty.
        { apply map_to_list_empty_iff. symmetry. by apply Permutation_nil_l. }
        eexists. unfold scrape, mbind, M_bind, Inc. simpl.
        by rewrite Hempty, lookup_empty.
      - eexists. by erewrite scrape_decoded_panic. }
    exists reason. split; [done|]. by apply Collect_Panic.
Qed.

Lemma decode_null_document_witness :
  Decode (T:=Z) (json.Document json.Null) NewPushStream = (None, None).
Proof.
  exact (proj1 (proj2 (decode_null_document (T:=Z)
                         (main_exporter nginxMetricFields_default)
                         (map_to_list (filterMetrics nginxMetricFields_default)) w0
                         (range_of_refl _)))).
Defined.

(** * Further properties of the exporter *)

(** ** Computations that only send *)

Lemma sends_ret {A} (P : Metric → Prop) (Q : A → Prop) (a : A) :
  Q a → sends P Q (mret a).
Proof.
  intros Ha. exists []. split; [done|]. left. exists a. split; [done|].
  intros w. unfold mret, M_ret. by rewrite world_app_nil.
Qed.

Lemma sends_panic {A} (P : Metric → Prop) (Q : A → Prop) (reason : string) :
  sends P Q (panic reason).
Proof.
  exists []. split; [done|]. right. exists reason.
  intros w. unfold panic. by rewrite world_app_nil.
Qed.

Lemma sends_send (P : Metric → Prop) (Q : () → Prop) (x : Metric) :
  P x → Q () → sends P Q (send x).
Proof.
  intros Hx HQ. exists [x]. split; [by constructor|]. left. exists (). by split.
Qed.

Lemma sends_bind {A B} (P : Metric → Prop) (Q1 : A → Prop) (Q2 : B → Prop)
    (m : M A) (f : A → M B) :
  sends P Q1 m → (∀ a, Q1 a → sends P Q2 (f a)) → sends P Q2 (m ≫= f).
Proof.
  intros (out1 & Hout1 & [(a & Ha & Hm)|(reason & Hm)]) Hf.
  - destruct (Hf a Ha) as (out2 & Hout2 & [(b & Hb & Hfa)|(reason & Hfa)]);
      exists (out1 ++ out2)%list; (split; [by apply Forall_app|]).
    + left. exists b. split; [done|]. intros w.
      erewrite bind_Return by apply Hm. rewrite Hfa. simpl. by rewrite app_assoc.
    + right. exists reason. intros w.
      erewrite bind_Return by apply Hm. rewrite Hfa. simpl. by rewrite app_assoc.
  - exists out1. split; [done|]. right. exists reason. intros w.
    by erewrite bind_Panic by apply Hm.
Qed.

Lemma sends_foldM {A B} (P : Metric → Prop) (I : B → Prop)
    (f : B → A → M B) (l : list A) (b : B) :
  I b → (∀ b a, I b → a ∈ l → sends P I (f b a)) → sends P I (foldM f b l).
Proof.
  revert b. induction l as [|a l IH]; intros b Hb Hf.
  - by apply sends_ret.
  - cbn [foldM]. apply (sends_bind P I I).
    + apply Hf; [done|by left].
    + intros b' Hb'. apply IH; [done|]. intros b'' a' ? ?. apply Hf; [done|by right].
Qed.

Lemma sends_MustNewConstMetric (P : Metric → Prop) (d : option Desc) (n : Z)
    (l : list string) :
  sends P (λ x, ∃ d', d = Some d' ∧ x = mkMetric d' n l
                      ∧ length l = length (variableLabels d'))
        (MustNewConstMetric d n l).
Proof.
  unfold MustNewConstMetric. destruct d as [d'|]; [|apply sends_panic].
  destruct (length l =? length (variableLabels d'))%nat eqn:Hl; [|apply sends_panic].
  apply sends_ret. exists d'. by apply Nat.eqb_eq in Hl.
Qed.

(** ** What [scrape] sends, whatever the response *)

Section scrape_sends.
Context {T : Type} `{Counter T}.
Context (P : Metric → Prop) (order : list (string * Desc)).
Hypothesis P_order :
  ∀ key val n l, (key, val) ∈ order →
                 length l = length (variableLabels val) → P (mkMetric val n l).

Lemma sends_emit (val : Desc) (n : Z) (l : list string) :
  (∃ key, (key, val) ∈ order) →
  sends P (λ _ : (), True) (m ← MustNewConstMetric (Some val) n l; send m).
Proof.
  intros [key Hin]. eapply sends_bind; [apply sends_MustNewConstMetric|].
  intros x (d' & [= <-] & -> & Hl). apply sends_send; [|done]. by eapply P_order.
Qed.

Lemma sends_scrape_infoField key val (info : Channel T) total field :
  (key, val) ∈ order →
  sends P (λ _ : Z, True) (scrape_infoField key val info total field).
Proof.
  intros Hin. destruct field as [tag v]. unfold scrape_infoField.
  apply (sends_bind P (λ _ : (), True)).
  - destruct (String.eqb key tag); [|by apply sends_ret].
    apply (sends_bind P (λ _ : Z, True)).
    + destruct v; [by apply sends_ret|apply sends_panic].
    + intros n _. apply sends_emit. by exists key.
  - intros _ _. destruct (_ && _); [|by apply sends_ret].
    destruct v; [by apply sends_ret|]. by destruct (strconv.Atoi s); apply sends_ret.
Qed.

Lemma sends_scrape_key (ps : option (PushStream T)) total (entry : string * Desc) :
  entry ∈ order → sends P (λ _ : Z, True) (scrape_key ps total entry).
Proof.
  destruct entry as [key val]. intros Hin. unfold scrape_key.
  destruct ps as [v|]; [|apply sends_panic].
  apply sends_foldM; [done|]. intros b [tag field] _ _. unfold scrape_field.
  destruct field as [[n|s]|infos].
  - apply (sends_bind P (λ _ : (), True)); [|intros; by apply sends_ret].
    destruct (String.eqb key tag); [|by apply sends_ret].
    apply sends_emit. by exists key.
  - by apply sends_ret.
  - apply sends_foldM; [done|]. intros b' [c|] _ _; [|apply sends_panic].
    apply sends_foldM; [done|]. intros. by apply sends_scrape_infoField.
Qed.

Lemma scrape_sends (e : Exporter) (fetched : option json.stream) :
  (∀ d n l, e_pushStreamMetrics e !! "subscribers_total" = Some d →
            length l = length (variableLabels d) → P (mkMetric d n l)) →
  ∃ out, Forall P out
    ∧ ((∃ up, (up = 0 ∨ up = 1)
          ∧ ∀ w, scrape e order fetched w
                 = Return up (mkWorld (ch w ++ out) (totalScrapes w + 1)))
       ∨ (∃ reason,
            ∀ w, scrape e order fetched w
                 = Panic reason (mkWorld (ch w ++ out) (totalScrapes w + 1)))).
Proof.
  intros P_total.
  assert (∀ rest : M Z, sends P (λ up, up = 0 ∨ up = 1) rest →
    ∃ out, Forall P out
      ∧ ((∃ up, (up = 0 ∨ up = 1)
            ∧ ∀ w, (_ ← Inc; rest) w
                   = Return up (mkWorld (ch w ++ out) (totalScrapes w + 1)))
         ∨ (∃ reason,
              ∀ w, (_ ← Inc; rest) w
                   = Panic reason (mkWorld (ch w ++ out) (totalScrapes w + 1)))))
    as Hinc.
  { intros rest (out & Hout & [(up & Hup & Hr)|(reason & Hr)]);
      exists out; (split; [done|]); [left; exists up; split; [done|]|right; exists reason];
      intros w; unfold mbind, M_bind, Inc; by rewrite Hr. }
  unfold scrape. apply Hinc.
  destruct fetched as [body|]; [|apply sends_ret; by left].
  destruct (Decode body NewPushStream) as [ps [err|]]; [apply sends_ret; by left|].
  apply (sends_bind P (λ _ : Z, True)).
  { apply sends_foldM; [done|]. intros. by apply sends_scrape_key. }
  intros total _. eapply sends_bind; [apply sends_MustNewConstMetric|].
  intros x (d & Hd & -> & Hl).
  apply (sends_bind P (λ _ : (), True)).
  - apply sends_send; [|done]. by apply P_total.
  - intros _ _. apply sends_ret. by right.
Qed.

End scrape_sends.

(** X1: a scrape does not depend on what earlier scrapes left behind.
    For an exporter, an iteration order and a fetch result there is one
    list of metrics and one result (liveness 0 or 1, or a panic) such
    that from every state of the collector the scrape appends exactly
    that list to what was sent before and adds exactly one to the scrape
    counter. *)
Theorem scrape_independent_of_history {T : Type} `{Counter T} (e : Exporter)
    (order : list (string * Desc)) (fetched : option json.stream) :
  ∃ out,
    (∃ up, (up = 0 ∨ up = 1)
       ∧ ∀ w, scrape e order fetched w
              = Return up (mkWorld (ch w ++ out) (totalScrapes w + 1)))
    ∨ (∃ reason,
         ∀ w, scrape e order fetched w
              = Panic reason (mkWorld (ch w ++ out) (totalScrapes w + 1))).
Proof.
  destruct (scrape_sends (λ _, True) order (λ _ _ _ _ _ _, I) e fetched
              (λ _ _ _ _ _, I)) as (out & _ & Hout).
  by exists out.
Qed.

Lemma range_of_entry {V} (m : gmap string V) order key val :
  range_of m order → (key, val) ∈ order → m !! key = Some val.
Proof. intros Hr Hin. rewrite Hr in Hin. by apply elem_of_map_to_list. Qed.

Lemma scrape_selected (T : Type) `{Counter T} (e : Exporter)
    (order : list (string * Desc)) (fetched : option json.stream) :
  range_of (e_pushStreamMetrics e) order →
  ∃ out, Forall (selected_metric (e_pushStreamMetrics e)) out
    ∧ ((∃ up, (up = 0 ∨ up = 1)
          ∧ ∀ w, scrape e order fetched w
                 = Return up (mkWorld (ch w ++ out) (totalScrapes w + 1)))
       ∨ (∃ reason,
            ∀ w, scrape e order fetched w
                 = Panic reason (mkWorld (ch w ++ out) (totalScrapes w + 1)))).
Proof.
  intros Hr. apply scrape_sends.
  - intros key val n l Hin Hl. split; [|done]. exists key. simpl.
    by eapply range_of_entry.
  - intros d n l Hd Hl. split; [|done]. by exists "subscribers_total".
Qed.

(** X2: the filter is respected by everything a scrape sends, whether it
    returns or panics and whatever the response is: each metric sent has
    the descriptor that the selected map binds to some key, and as many
    label values as that descriptor has labels. *)
Theorem scrape_sends_selected_only {T : Type} `{Counter T} (e : Exporter)
    (order : list (string * Desc)) (fetched : option json.stream) (w : world) :
  range_of (e_pushStreamMetrics e) order →
  ∃ out,
    ch (outcome_world (scrape e order fetched w)) = (ch w ++ out)%list
    ∧ Forall (selected_metric (e_pushStreamMetrics e)) out.
Proof.
  intros Hr.
  destruct (scrape_selected T e order fetched Hr)
    as (out & Hout & [(up & _ & Hs)|(reason & Hs)]);
    exists out; by rewrite Hs.
Qed.

Lemma scrape_sends_selected_only_witness :
  ∃ out,
    ch (outcome_world
          (scrape (T:=Z) (main_exporter "channels")
                  (map_to_list (filterMetrics "channels"))
                  (Some (json.Document scenario_payload)) w0))
    = (ch w0 ++ out)%list
    ∧ Forall (selected_metric (e_pushStreamMetrics (main_exporter "channels"))) out.
Proof.
  exact (scrape_sends_selected_only (T:=Z) (main_exporter "channels")
           (map_to_list (filterMetrics "channels"))
           (Some (json.Document scenario_payload)) w0 (range_of_refl _)).
Defined.

(** X3: when a scrape returns, the liveness value tells what happened.
    It is [0] exactly when the fetch or the decoding failed, and then
    nothing was sent; it is [1] exactly when the response was decoded,
    and then [subscribers_total] is a selected key and the last metric
    sent is its sample with the label value [all].  So an exporter whose
    selection lacks [subscribers_total] never reports liveness [1]. *)
Theorem scrape_liveness {T : Type} `{Counter T} (e : Exporter)
    (order : list (string * Desc)) (fetched : option json.stream)
    (w w' : world) (up : Z) :
  scrape e order fetched w = Return up w' →
  (up = 0
   ∧ w' = mkWorld (ch w) (totalScrapes w + 1)
   ∧ (fetched = None
      ∨ ∃ body ps err, fetched = Some body
                       ∧ Decode body NewPushStream = (ps, Some err)))
  ∨ (up = 1
     ∧ (∃ body ps, fetched = Some body ∧ Decode body NewPushStream = (ps, None))
     ∧ ∃ d total, e_pushStreamMetrics e !! "subscribers_total" = Some d
                  ∧ last (ch w') = Some (mkMetric d total ["all"])).
Proof.
  unfold scrape, mbind, M_bind, Inc.
  destruct fetched as [body|].
  2:{ intros [= <- <-]. left. split; [done|]. split; [done|]. by left. }
  destruct (Decode body NewPushStream) as [ps [err|]] eqn:Hd.
  { intros [= <- <-]. left. split; [done|]. split; [done|]. right. by eexists _, _, _. }
  destruct (foldM _ _ _ _) as [total w1|]; [|done].
  unfold MustNewConstMetric.
  destruct (e_pushStreamMetrics e !! "subscribers_total") as [d|]; [|done].
  destruct (_ =? _)%nat; [|done]. simpl.
  intros [= <- <-]. right. split; [done|]. split; [by eexists _, _|].
  exists d, total. split; [done|]. simpl. by rewrite last_snoc.
Qed.

Lemma scrape_liveness_witness :
  (0 = 0
   ∧ mkWorld [] 1 = mkWorld (ch w0) (totalScrapes w0 + 1)
   ∧ (Some (json.Document not_a_number_payload) = None
      ∨ ∃ body ps err, Some (json.Document not_a_number_payload) = Some body
                       ∧ Decode (T:=Z) body NewPushStream = (ps, Some err)))
  ∨ (0 = 1
     ∧ (∃ body ps, Some (json.Document not_a_number_payload) = Some body
                   ∧ Decode (T:=Z) body NewPushStream = (ps, None))
     ∧ ∃ d total,
         e_pushStreamMetrics (main_exporter nginxMetricFields_default)
           !! "subscribers_total" = Some d
         ∧ last (ch (mkWorld [] 1)) = Some (mkMetric d total ["all"])).
Proof.
  assert (scrape (T:=Z) (main_exporter nginxMetricFields_default)
            (map_to_list (filterMetrics nginxMetricFields_default))
            (Some (json.Document not_a_number_payload)) w0
          = Return 0 (mkWorld [] 1)) as Hs by (vm_compute; reflexivity).
  exact (scrape_liveness (T:=Z) _ _ _ w0 _ 0 Hs).
Defined.

(** ** [Describe], [Collect] and [fetchHTTP] *)

Lemma Describe_eq (e : Exporter) (order : list (string * Desc)) :
  Describe e order = (order.*2 ++ [nginxUp; totalScrapes_desc])%list.
Proof.
  unfold Describe.
  assert (∀ acc, foldl (λ ch (entry : string * Desc), (ch ++ [entry.2])%list) acc order
                 = (acc ++ order.*2)%list) as ->.
  { induction order as [|entry order IH]; intros acc; simpl.
    - by rewrite app_nil_r.
    - by rewrite IH, <-app_assoc. }
  simpl. by rewrite <-app_assoc.
Qed.

(** X4: [Collect] stays within what [Describe] announces.  In whatever
    orders the two methods visit the selected map, [Describe] sends the
    selected descriptors, then the one of the liveness gauge, then the
    one of the scrape counter, and every metric [Collect] sends, whether
    it returns or panics, has one of these descriptors. *)
Theorem Collect_sends_described {T : Type} `{Counter T} (e : Exporter)
    (order dorder : list (string * Desc)) (fetched : option json.stream) (w : world) :
  range_of (e_pushStreamMetrics e) order →
  range_of (e_pushStreamMetrics e) dorder →
  Describe e dorder
  ≡ₚ ((map_to_list (e_pushStreamMetrics e)).*2 ++ [nginxUp; totalScrapes_desc])%list
  ∧ ∃ out,
      ch (outcome_world (Collect e order fetched w)) = (ch w ++ out)%list
      ∧ Forall (λ x, desc x ∈ Describe e dorder) out.
Proof.
  intros Hr Hdr. rewrite Describe_eq. split; [by rewrite Hdr|].
  assert (∀ x, selected_metric (e_pushStreamMetrics e) x →
               desc x ∈ (dorder.*2 ++ [nginxUp; totalScrapes_desc])%list) as Hsel.
  { intros x [[key Hkey] _]. apply elem_of_app. left.
    apply list_elem_of_fmap. exists (key, desc x). split; [done|].
    rewrite Hdr. by apply elem_of_map_to_list. }
  destruct (scrape_selected T e order fetched Hr)
    as (out & Hout & [(up & _ & Hs)|(reason & Hs)]).
  - exists (out ++ [mkMetric nginxUp up [];
                    mkMetric totalScrapes_desc (totalScrapes w + 1) []])%list.
    rewrite (Collect_Return _ _ _ _ _ _ (Hs w)). simpl. split; [by rewrite app_assoc|].
    apply Forall_app. split; [by eapply Forall_impl|].
    repeat constructor; simpl; apply elem_of_app; right;
      rewrite !elem_of_cons; tauto.
  - exists out. rewrite (Collect_Panic _ _ _ _ _ _ (Hs w)). simpl. split; [done|].
    by eapply Forall_impl.
Qed.

Lemma Collect_sends_described_witness :
  ∃ out,
    ch (outcome_world
          (Collect (T:=Z) (main_exporter nginxMetricFields_default)
                   (map_to_list (filterMetrics nginxMetricFields_default))
                   (Some (json.Document scenario_payload)) w0))
    = (ch w0 ++ out)%list
    ∧ Forall (λ x, desc x ∈ Describe (main_exporter nginxMetricFields_default)
                              (map_to_list (filterMetrics nginxMetricFields_default)))
             out.
Proof.
  exact (proj2 (Collect_sends_described (T:=Z) (main_exporter nginxMetricFields_default)
                  (map_to_list (filterMetrics nginxMetricFields_default))
                  (map_to_list (filterMetrics nginxMetricFields_default))
                  (Some (json.Document scenario_payload)) w0
                  (range_of_refl _) (range_of_refl _))).
Defined.

(** X5: [fetchHTTP] hands the body to the scrape exactly when the request
    succeeds with a status from 200 to 299.  On an error of the request
    or any other status the body is not looked at, whatever it holds:
    [Collect] sends nothing but liveness [0] and the scrape counter,
    which has gone up by one. *)
Theorem fetchHTTP_status {T : Type} `{Counter T} (e : Exporter)
    (order : list (string * Desc)) (uri : string) (timeout : Z)
    (client_Get : string → option http.Response) (w : world) :
  (∀ body, fetchHTTP uri timeout client_Get () = Some body
           ↔ ∃ resp, client_Get uri = Some resp
                     ∧ 200 <= http.StatusCode resp < 300
                     ∧ http.Body resp = body)
  ∧ ((∀ resp, client_Get uri = Some resp → ¬ (200 <= http.StatusCode resp < 300)) →
     Collect e order (fetchHTTP uri timeout client_Get ()) w
     = Return () (mkWorld (ch w ++ [mkMetric nginxUp 0 [];
                                    mkMetric totalScrapes_desc (totalScrapes w + 1) []])
                          (totalScrapes w + 1))).
Proof.
  assert (∀ body, fetchHTTP uri timeout client_Get () = Some body
           ↔ ∃ resp, client_Get uri = Some resp
                     ∧ 200 <= http.StatusCode resp < 300
                     ∧ http.Body resp = body) as Hiff.
  { intros body. unfold fetchHTTP. destruct (client_Get uri) as [resp|].
    - destruct (200 <=? http.StatusCode resp) eqn:Hlo;
        destruct (http.StatusCode resp <? 300) eqn:Hhi; simpl;
        try apply Z.leb_le in Hlo; try apply Z.leb_gt in Hlo;
        try apply Z.ltb_lt in Hhi; try apply Z.ltb_ge in Hhi.
      + split.
        * intros [= <-]. exists resp. by repeat split.
        * by intros (resp' & [= <-] & _ & ->).
      + split; [done|]. intros (resp' & [= <-] & ? & _). lia.
      + split; [done|]. intros (resp' & [= <-] & ? & _). lia.
      + split; [done|]. intros (resp' & [= <-] & ? & _). lia.
    - split; [done|]. by intros (resp' & ? & _). }
  split; [exact Hiff|]. intros Hbad.
  assert (fetchHTTP uri timeout client_Get () = None) as ->.
  { destruct (fetchHTTP uri timeout client_Get ()) as [body|] eqn:Hf; [|done].
    destruct (proj1 (Hiff body) eq_refl) as (resp & Hget & Hcode & _).
    by destruct (Hbad resp Hget). }
  by rewrite (Collect_Return e order None w 0 (mkWorld (ch w) (totalScrapes w + 1))).
Qed.

Lemma fetchHTTP_status_witness :
  Collect (T:=Z) (main_exporter nginxMetricFields_default)
          (map_to_list (filterMetrics nginxMetricFields_default))
          (fetchHTTP "http://localhost:8080/channels-stats?id=ALL" 5
             (λ _, Some (http.mkResponse 404 (json.Document scenario_payload))) ())
          w0
  = Return () (mkWorld (ch w0 ++ [mkMetric nginxUp 0 [];
                                  mkMetric totalScrapes_desc (totalScrapes w0 + 1) []])
                       (totalScrapes w0 + 1)).
Proof.
  apply (fetchHTTP_status (T:=Z)).
  intros resp [= <-]. simpl. lia.
Defined.

(** ** Selections and [metrics.String] *)

Lemma catalog_key_no_comma (m : metrics) (k : string) :
  m ⊆ pushStreamMetrics → is_Some (m !! k) → strings.Split k "," = [k].
Proof.
  intros Hsub [d Hd]. pose proof (lookup_weaken _ _ _ _ Hd Hsub) as Hc.
  apply elem_of_map_to_list in Hc. revert Hc.
  let l := eval vm_compute in (map_to_list pushStreamMetrics) in
  assert (map_to_list pushStreamMetrics = l) as -> by by vm_compute.
  rewrite !elem_of_cons, elem_of_nil.
  intros [?|[?|[?|[?|[?|[]]]]]]; by simplify_eq.
Qed.

Lemma sort_Strings_elem (l : list string) (k : string) : k ∈ sort.Strings l ↔ k ∈ l.
Proof. unfold sort.Strings. by rewrite merge_sort_Permutation. Qed.

(** For a map whose keys hold no comma, splitting [metrics.String] gives
    the sorted keys back. *)
Lemma Split_String_range (m : metrics) (order : list (string * Desc)) :
  range_of m order → m ≠ ∅ →
  (∀ k, is_Some (m !! k) → strings.Split k "," = [k]) →
  strings.Split (String_range order) "," = sort.Strings order.*1.
Proof.
  intros Hr Hne Hkeys. rewrite String_range_eq. apply (Split_Join _ ",").
  - intros Hnil.
    assert (order.*1 = []) as Hk.
    { apply Permutation_nil_r. rewrite <-Hnil. unfold sort.Strings.
      by rewrite merge_sort_Permutation. }
    apply fmap_nil_inv in Hk. subst order.
    apply Hne, map_to_list_empty_iff. symmetry. by apply Permutation_nil_l.
  - apply Forall_forall. intros k Hk. apply (proj1 (sort_Strings_elem _ _)) in Hk.
    apply Hkeys. by apply (proj1 (range_of_lookup m order k Hr)).
Qed.

(** X6: [metrics.String] and [filterMetrics] are inverse to each other on
    the maps the filter can return.  For every sub-map of the catalog,
    the string that [String] makes of it selects exactly that sub-map
    again, in whatever orders the two loops visit their maps; in
    particular the default of the selection flag selects the whole
    catalog, and filtering is idempotent through [String]. *)
Theorem filterMetrics_of_String (m : metrics) (order corder : list (string * Desc))
    (filter : string) :
  m ⊆ pushStreamMetrics →
  range_of m order →
  range_of pushStreamMetrics corder →
  filterMetrics_range corder (String_range order) = m
  ∧ filterMetrics_range corder nginxMetricFields_default = pushStreamMetrics
  ∧ filterMetrics (metrics_String (filterMetrics filter)) = filterMetrics filter.
Proof.
  intros Hsub Hr Hc.
  assert (∀ m order, m ⊆ pushStreamMetrics → range_of m order →
            filterMetrics_range corder (String_range order) = m) as Hgen.
  { clear m order Hsub Hr. intros m order Hsub Hr.
    destruct (decide (m = ∅)) as [->|Hne].
    - assert (order = []) as ->.
      { apply Permutation_nil_r. by rewrite Hr, map_to_list_empty. }
      done.
    - apply map_eq. intros k.
      rewrite (filterMetrics_range_lookup corder _ k Hc).
      rewrite (Split_String_range m order Hr Hne)
        by (intros; by eapply catalog_key_no_comma).
      destruct (m !! k) as [d|] eqn:Hk.
      + rewrite decide_True.
        * by apply (lookup_weaken _ _ _ _ Hk Hsub).
        * apply (proj2 (sort_Strings_elem _ _)), (proj2 (range_of_lookup m order k Hr)).
          by eexists.
      + rewrite decide_False; [done|].
        intros Hin. apply (proj1 (sort_Strings_elem _ _)) in Hin.
        apply (proj1 (range_of_lookup m order k Hr)) in Hin.
        rewrite Hk in Hin. by destruct Hin. }
  split; [by apply Hgen|]. split.
  - apply (Hgen pushStreamMetrics); [done|apply range_of_refl].
  - rewrite <-(filterMetrics_range_order corder) by done.
    apply Hgen; [|apply range_of_refl].
    unfold filterMetrics.
    destruct (filterMetrics_exact_tokens_aux _ filter (range_of_refl pushStreamMetrics))
      as [_ ->].
    apply map_filter_subseteq.
Qed.

Lemma filterMetrics_of_String_witness :
  filterMetrics_range (map_to_list pushStreamMetrics)
    (String_range (map_to_list (filterMetrics "subscribers,channels")))
  = filterMetrics "subscribers,channels".
Proof.
  assert (filterMetrics "subscribers,channels" ⊆ pushStreamMetrics) as Hsub.
  { apply (bool_decide_unpack _). vm_compute. exact I. }
  exact (proj1 (filterMetrics_of_String (filterMetrics "subscribers,channels")
                  (map_to_list (filterMetrics "subscribers,channels"))
                  (map_to_list pushStreamMetrics) ""
                  Hsub (range_of_refl _) (range_of_refl _))).
Defined.

(** X7: [metrics.String] of any map, not only of the catalog, does not
    depend on the order in which the map is visited; it is empty for the
    empty map, and for a non-empty map whose keys hold no comma it splits
    at the commas into the keys of the map in ascending order. *)
Theorem metrics_String_any_map (m : metrics) (order order' : list (string * Desc)) :
  range_of m order → range_of m order' →
  String_range order = String_range order'
  ∧ (m = ∅ → String_range order = "")
  ∧ (m ≠ ∅ → (∀ k, is_Some (m !! k) → strings.Split k "," = [k]) →
     strings.Split (String_range order) "," = sort.Strings order.*1
     ∧ Sorted String.le (strings.Split (String_range order) ",")
     ∧ strings.Split (String_range order) "," ≡ₚ (map_to_list m).*1).
Proof.
  intros Hr Hr'. split; [|split].
  - by rewrite (String_range_order order m), (String_range_order order' m).
  - intros ->. assert (order = []) as ->; [|done].
    apply Permutation_nil_r. by rewrite Hr, map_to_list_empty.
  - intros Hne Hkeys. rewrite (Split_String_range m order Hr Hne Hkeys).
    split; [done|]. split.
    + apply Sorted_merge_sort, _.
    + unfold sort.Strings. by rewrite merge_sort_Permutation, Hr.
Qed.

Lemma metrics_String_any_map_witness :
  String_range (map_to_list (filterMetrics "subscribers,channels"))
  = String_range (reverse (map_to_list (filterMetrics "subscribers,channels"))).
Proof.
  assert (range_of (filterMetrics "subscribers,channels")
            (reverse (map_to_list (filterMetrics "subscribers,channels")))) as Hr.
  { unfold range_of. apply reverse_Permutation. }
  exact (proj1 (metrics_String_any_map (filterMetrics "subscribers,channels")
                  (map_to_list (filterMetrics "subscribers,channels"))
                  (reverse (map_to_list (filterMetrics "subscribers,channels")))
                  (range_of_refl _) Hr)).
Defined.

Lemma Split_app (a b : string) (sep : ascii) :
  strings.Split (a +:+ String sep b) sep
  = (strings.Split a sep ++ strings.Split b sep)%list.
Proof.
  induction a as [|c a IH]; simpl.
  - by rewrite Ascii.eqb_refl.
  - rewrite IH. destruct (Ascii.eqb c sep); [done|].
    destruct (strings.Split a sep) as [|q qs] eqn:Hs; [|done].
    by destruct (Split_nonempty a sep).
Qed.

(** X8: joining two selections with a comma selects the union of what
    each of them selects, so the order of the keys in the selection does
    not matter; this holds for empty and for unknown parts as well. *)
Theorem filterMetrics_comma_union (order : list (string * Desc)) (a b : string) :
  range_of pushStreamMetrics order →
  filterMetrics_range order (a +:+ "," +:+ b)
  = filterMetrics_range order a ∪ filterMetrics_range order b
  ∧ filterMetrics_range order (a +:+ "," +:+ b)
    = filterMetrics_range order (b +:+ "," +:+ a).
Proof.
  intros Hr.
  assert (∀ a b k, filterMetrics_range order (a +:+ "," +:+ b) !! k
                   = if decide (k ∈ strings.Split a "," ∨ k ∈ strings.Split b ",")
                     then pushStreamMetrics !! k else None) as Hl.
  { intros a' b' k. rewrite (filterMetrics_range_lookup order _ k Hr).
    change ("," +:+ b') with (String "," b'). rewrite Split_app.
    destruct (decide (k ∈ (strings.Split a' "," ++ strings.Split b' ",")%list))
      as [Hin|Hnin].
    - rewrite decide_True; [done|]. by apply elem_of_app.
    - rewrite decide_False; [done|]. by rewrite <-elem_of_app. }
  split.
  - apply map_eq. intros k. rewrite Hl, lookup_union.
    rewrite !(filterMetrics_range_lookup order _ k Hr).
    destruct (decide (k ∈ strings.Split a ",")), (decide (k ∈ strings.Split b ","));
      [rewrite decide_True by tauto|rewrite decide_True by tauto
      |rewrite decide_True by tauto|rewrite decide_False by tauto];
      by destruct (pushStreamMetrics !! k).
  - apply map_eq. intros k. rewrite !Hl.
    destruct (decide (k ∈ strings.Split a ",")), (decide (k ∈ strings.Split b ","));
      [rewrite !decide_True by tauto|rewrite !decide_True by tauto
      |rewrite !decide_True by tauto|rewrite !decide_False by tauto]; done.
Qed.

Lemma filterMetrics_comma_union_witness :
  filterMetrics_range (map_to_list pushStreamMetrics) ("channels" +:+ "," +:+ "bogus")
  = filterMetrics_range (map_to_list pushStreamMetrics) "channels"
    ∪ filterMetrics_range (map_to_list pushStreamMetrics) "bogus".
Proof.
  exact (proj1 (filterMetrics_comma_union (map_to_list pushStreamMetrics)
                  "channels" "bogus" (range_of_refl _))).
Defined.

(** ** More on what [scrape] sends *)








(** ** More on decoding *)

(** X12: an array decoded into [Infos] gives a slice as long as the
    array, whatever the slice held before, and entry [i] of it is [nil]
    exactly when element [i] of the array is [null]. *)
Theorem Infos_array_entries {T : Type} `{Counter T} (elems : list json.Value)
    (old : list (option (Channel T))) :
  length (Infos_array elems old).1 = length elems
  ∧ ∀ i, (Infos_array elems old).1 !! i = Some None ↔ elems !! i = Some json.Null.
Proof.
  revert old. induction elems as [|v elems IH]; intros old.
  - split; [done|]. intros i. by rewrite !lookup_nil.
  - cbn [Infos_array].
    destruct (Channel_ptr v (mjoin (head old))) as [p err] eqn:Hp.
    destruct (IH (tail old)) as [Hlen Hnil].
    destruct (Infos_array elems (tail old)) as [ps err'] eqn:Hps.
    simpl in *. split; [by rewrite Hlen|].
    intros [|i]; simpl; [|apply Hnil].
    unfold Channel_ptr in Hp.
    destruct v; simplify_eq; try (split; intros; by simplify_eq).
    destruct (Channel_object members _). simplify_eq. split; intros; by simplify_eq.
Qed.










(** ** Names and labels of the samples *)

Lemma catalog_entry (k : string) (d : Desc) :
  pushStreamMetrics !! k = Some d →
  fqName d = "nginx_push_stream_" +:+ k ∧ variableLabels d = ["channel"].
Proof.
  intros Hk%elem_of_map_to_list. revert Hk.
  let l := eval vm_compute in (map_to_list pushStreamMetrics) in
  assert (map_to_list pushStreamMetrics = l) as -> by by vm_compute.
  rewrite !elem_of_cons, elem_of_nil.
  intros [?|[?|[?|[?|[?|[]]]]]]; by simplify_eq.
Qed.

(** X15: whatever the selection string, the version of the structs, the
    iteration order and the response, every metric a scrape sends is
    named [nginx_push_stream_] followed by a catalog key that occurs in
    the selection string, and carries exactly one label value. *)
Theorem sample_names {T : Type} `{Counter T} (filter : string)
    (order : list (string * Desc)) (fetched : option json.stream) (w : world) :
  range_of (filterMetrics filter) order →
  ∃ out,
    ch (outcome_world (scrape (main_exporter filter) order fetched w))
    = (ch w ++ out)%list
    ∧ Forall (λ x, ∃ k, k ∈ strings.Split filter ","
                        ∧ is_Some (pushStreamMetrics !! k)
                        ∧ fqName (desc x) = "nginx_push_stream_" +:+ k
                        ∧ length (labelValues x) = 1%nat) out.
Proof.
  intros Hr.
  destruct (scrape_selected T (main_exporter filter) order fetched Hr)
    as (out & Hout & Hs).
  exists out. split.
  - by destruct Hs as [(up & _ & ->)|(reason & ->)].
  - eapply Forall_impl; [exact Hout|].
    intros x [[k Hk] Hl]. simpl in Hk. rewrite filterMetrics_lookup in Hk.
    case_decide as Hin; [|done].
    destruct (catalog_entry k (desc x) Hk) as [Hname Hlabels].
    exists k. split; [done|]. split; [by eexists|]. split; [done|].
    by rewrite Hl, Hlabels.
Qed.

Lemma sample_names_witness :
  ∃ out,
    ch (outcome_world
          (scrape (T:=Z) (main_exporter "channels,subscribers_total")
                  (map_to_list (filterMetrics "channels,subscribers_total"))
                  (Some (json.Document scenario_payload)) w0))
    = (ch w0 ++ out)%list
    ∧ Forall (λ x, ∃ k, k ∈ strings.Split "channels,subscribers_total" ","
                        ∧ is_Some (pushStreamMetrics !! k)
                        ∧ fqName (desc x) = "nginx_push_stream_" +:+ k
                        ∧ length (labelValues x) = 1%nat) out.
Proof.
  exact (sample_names (T:=Z) "channels,subscribers_total"
           (map_to_list (filterMetrics "channels,subscribers_total"))
           (Some (json.Document scenario_payload)) w0 (range_of_refl _)).
Defined.
